(** * A shallow embedding of [setup.py] and [langchain/llms/vllm.py]

    The two source files are independent: a build descriptor that reads
    files and calls [setuptools.setup], and two thin adapters around an
    external inference engine.  Python dictionaries with string keys are
    finite maps, exceptions are an explicit result type, and calls into
    external collaborators are recorded in an event trace. *)

From Stdlib Require Import ZArith Ascii String List Bool Lia.
From Stdlib Require Import Floats.SpecFloat.
From stdpp Require Import base option gmap strings list fin_maps.

Set Default Proof Using "Type".

(** ** Exceptions and the trace monad *)

Inductive exn : Type :=
| ImportError (msg : string)
| RuntimeError (msg : string)
| FileNotFoundError (path : string)
| IsADirectoryError (path : string)
| PermissionError (path : string)
| UnicodeDecodeError (msg : string)
| KeyError (key : string)
| TypeError (msg : string)
| IndexError (msg : string)
| ExternalError (tag : string).

Inductive result (A : Type) : Type :=
| Ok (a : A)
| Raise (e : exn).
Arguments Ok {A} a.
Arguments Raise {A} e.

(** A computation appends the events it performs to the trace it is given
    and either returns or raises; the events performed before an
    exception stay in the trace. *)
Definition M (E A : Type) : Type := list E → list E * result A.

Definition ret {E A} (a : A) : M E A := λ t, (t, Ok a).
Definition raise {E A} (e : exn) : M E A := λ t, (t, Raise e).
Definition emit {E} (ev : E) : M E unit := λ t, (t ++ [ev], Ok tt).
Definition lift {E A} (r : result A) : M E A := λ t, (t, r).
Definition bind {E A B} (m : M E A) (k : A → M E B) : M E B :=
  λ t, match m t with
       | (t', Ok a) => k a t'
       | (t', Raise e) => (t', Raise e)
       end.

#[global] Instance M_ret {E} : MRet (M E) := λ A, @ret E A.
#[global] Instance M_bind {E} : MBind (M E) := λ A B k m, bind m k.

Definition run {E A} (m : M E A) : list E * result A := m [].

(** ** Characters the sources mention *)

Definition dquote : ascii := "034"%char.
Definition squote : ascii := "'"%char.
Definition newline : ascii := "010"%char.

(** ** [re]: the fragment of Python's backtracking matcher that the
    pattern of [find_version] uses *)

Module Re.

(** One-character items of a pattern. *)
Inductive atom : Type :=
| Chr (c : ascii)              (* a literal character *)
| OneOf (cs : list ascii)      (* [...] *)
| NoneOf (cs : list ascii).    (* [^...] *)

Inductive node : Type :=
| Bol                          (* ^ *)
| One (a : atom)
| Many (a : atom)              (* a*, greedy *)
| GroupOpen                    (* ( of group 1 *)
| GroupClose.                  (* ) of group 1 *)

Definition mem (c : ascii) (cs : list ascii) : bool :=
  existsb (Ascii.eqb c) cs.

Definition accepts (a : atom) (c : ascii) : bool :=
  match a with
  | Chr c' => Ascii.eqb c c'
  | OneOf cs => mem c cs
  | NoneOf cs => negb (mem c cs)
  end.

(** Capture state of group 1: the text consumed since an unmatched
    [GroupOpen], and the text of the group once closed. *)
Record caps : Type := { cur : option string; grp : option string }.

Definition no_caps : caps := {| cur := None; grp := None |}.

Definition push (c : ascii) (k : caps) : caps :=
  {| cur := (λ s, s +:+ String c "") <$> cur k; grp := grp k |}.

(** [^] matches at the start of the text and, under [re.M], also right
    after a newline.  [prev] is the character before the position. *)
Definition at_bol (multiline : bool) (prev : option ascii) : bool :=
  match prev with
  | None => true
  | Some c => multiline && Ascii.eqb c newline
  end.

(** Match the nodes at the current position; a greedy repetition takes as
    many characters as it can and gives them back one by one when the
    rest of the pattern fails. *)
Fixpoint exec (multiline : bool) (ns : list node)
    (prev : option ascii) (s : string) (k : caps) : option caps :=
  match ns with
  | [] => Some k
  | Bol :: ns' =>
      if at_bol multiline prev then exec multiline ns' prev s k else None
  | One a :: ns' =>
      match s with
      | String c s' =>
          if accepts a c then exec multiline ns' (Some c) s' (push c k)
          else None
      | EmptyString => None
      end
  | Many a :: ns' =>
      (fix many (prev : option ascii) (s : string) (k : caps)
         : option caps :=
         match s with
         | String c s' =>
             if accepts a c then
               match many (Some c) s' (push c k) with
               | Some r => Some r
               | None => exec multiline ns' prev s k
               end
             else exec multiline ns' prev s k
         | EmptyString => exec multiline ns' prev s k
         end) prev s k
  | GroupOpen :: ns' =>
      exec multiline ns' prev s {| cur := Some ""; grp := grp k |}
  | GroupClose :: ns' =>
      exec multiline ns' prev s {| cur := None; grp := cur k |}
  end.

(** [re.search]: try every start position from left to right, the end of
    the text included, and keep the first match. *)
Fixpoint search_from (multiline : bool) (ns : list node)
    (prev : option ascii) (s : string) : option caps :=
  match exec multiline ns prev s no_caps with
  | Some k => Some k
  | None =>
      match s with
      | String c s' => search_from multiline ns (Some c) s'
      | EmptyString => None
      end
  end.

Definition search (ns : list node) (text : string) (multiline : bool)
  : option caps :=
  search_from multiline ns None text.

(** [m.group(1)]: [None] in Python when the group took no part. *)
Definition group1 (m : caps) : option string := grp m.

Definition literal (s : string) : list node :=
  (λ c, One (Chr c)) <$> list_ascii_of_string s.

End Re.

(** ** [str] and [os.path] methods used by [setup.py] *)

Module Str.

(** [str.isspace] on one character (code points below 256). *)
Definition isspace (c : ascii) : bool :=
  let n := nat_of_ascii c in
  ((9 <=? n) && (n <=? 13)) || ((28 <=? n) && (n <=? 32))
  || (n =? 133) || (n =? 160).

Fixpoint lstrip (s : string) : string :=
  match s with
  | String c s' => if isspace c then lstrip s' else s
  | EmptyString => EmptyString
  end.

Fixpoint rstrip (s : string) : string :=
  match s with
  | String c s' =>
      match rstrip s' with
      | EmptyString => if isspace c then EmptyString else String c ""
      | r => String c r
      end
  | EmptyString => EmptyString
  end.

(** [s.strip()] *)
Definition strip (s : string) : string := rstrip (lstrip s).

(** [s.split(sep)] for a one-character separator. *)
Fixpoint split (sep : ascii) (s : string) : list string :=
  match s with
  | EmptyString => [""]
  | String c s' =>
      if Ascii.eqb c sep then "" :: split sep s'
      else match split sep s' with
           | h :: t => String c h :: t
           | [] => [String c ""]
           end
  end.

Definition startswith (c : ascii) (s : string) : bool :=
  match s with
  | String d _ => Ascii.eqb d c
  | EmptyString => false
  end.

Fixpoint endswith (c : ascii) (s : string) : bool :=
  match s with
  | String d EmptyString => Ascii.eqb d c
  | String _ s' => endswith c s'
  | EmptyString => false
  end.

End Str.

Module Path.

Definition sep : ascii := "/"%char.

(** [p[:p.rfind(sep) + 1]]: the text up to and including the last
    separator, empty when there is none. *)
Fixpoint head_of (p : string) : string :=
  match p with
  | EmptyString => EmptyString
  | String c p' =>
      match head_of p' with
      | EmptyString => if Ascii.eqb c sep then String c "" else EmptyString
      | h => String c h
      end
  end.

Fixpoint all_sep (s : string) : bool :=
  match s with
  | EmptyString => true
  | String c s' => Ascii.eqb c sep && all_sep s'
  end.

Fixpoint rstrip_sep (s : string) : string :=
  match s with
  | String c s' =>
      match rstrip_sep s' with
      | EmptyString => if Ascii.eqb c sep then EmptyString else String c ""
      | r => String c r
      end
  | EmptyString => EmptyString
  end.

(** [posixpath.dirname] *)
Definition dirname (p : string) : string :=
  let head := head_of p in
  match head with
  | EmptyString => head
  | _ => if all_sep head then head else rstrip_sep head
  end.

(** One round of the loop of [posixpath.join]. *)
Definition join1 (path b : string) : string :=
  if Str.startswith sep b then b
  else match path with
       | EmptyString => path +:+ b
       | _ => if Str.endswith sep path then path +:+ b
              else path +:+ String sep b
       end.

(** [posixpath.join(a, *p)] *)
Definition join (a : string) (p : list string) : string :=
  foldl join1 a p.

End Path.

(** ** [setup.py] *)

Module Setup.

(** The file system as [open(path).read()] sees it: the decoded text of
    each readable file, one character per code point below 256. *)
Definition files : Type := gmap string string.

(** The keyword arguments of the [setuptools.setup] call. *)
Record setup_args : Type := {
  name : string;
  version : string;
  author : string;
  license : string;
  classifiers : list string;
  packages : list string;
  python_requires : string;
  install_requires : list string;
  package_data : list (string * list string)
}.

Inductive event : Type :=
| EvOpen (path : string)
| EvFindPackages (exclude : list string)
| EvSetup (args : setup_args).

(** What the script is run in: its own path ([__file__]), the files on
    disk that can be read as text, the exception that opening or reading
    any other path raises ([FileNotFoundError] for a missing file,
    [IsADirectoryError], [PermissionError], [UnicodeDecodeError] and the
    like for a path that exists), and the package finder of the build
    tool. *)
Record world : Type := {
  script_file : string;
  disk : files;
  read_error : string → exn;
  find_packages : list string → list string
}.

(** [open(path).read()]: the text of a readable file, or the exception
    the failed read raises. *)
Definition read_file (w : world) (path : string) : M event string :=
  emit (EvOpen path);;
  match disk w !! path with
  | Some text => mret text
  | None => raise (read_error w path)
  end.

Definition ROOT_DIR (w : world) : string := Path.dirname (script_file w).

Definition get_path (w : world) (filepath : list string) : string :=
  Path.join (ROOT_DIR w) filepath.

(** The pattern of [find_version]: a caret, the literal text up to and
    including the space after the equals sign, one quote character of
    either kind, group 1 holding a greedy run of characters that are not
    quote characters, and one more quote character of either kind. *)
Definition quotes : list ascii := [squote; dquote].

Definition version_pattern : list Re.node :=
  [Re.Bol] ++ Re.literal "__version__ = " ++
  [Re.One (Re.OneOf quotes); Re.GroupOpen; Re.Many (Re.NoneOf quotes);
   Re.GroupClose; Re.One (Re.OneOf quotes)].

(** The result is what [version_match.group(1)] is: a string, or Python's
    [None] (here [None]) for a group that took no part in the match. *)
Definition find_version (w : world) (filepath : string)
  : M event (option string) :=
  text ← read_file w filepath;
  match Re.search version_pattern text true with
  | Some version_match => mret (Re.group1 version_match)
  | None => raise (RuntimeError "Unable to find version string.")
  end.

Definition read_readme (w : world) : M event string :=
  read_file w (get_path w ["README.md"]).

Definition get_requirements (w : world) : M event (list string) :=
  text ← read_file w (get_path w ["requirements.txt"]);
  mret (Str.split newline (Str.strip text)).


End Setup.

(** ** Python values *)

(** The values the adapters pass around.  An instance of a class is a
    reference: [VObj a t] is the object at address [a], and [t] is what
    [bool(obj)] answers ([True] unless its class defines [__bool__] or
    [__len__]).  Two references are the same object when they are equal. *)
#[local] Unset Elimination Schemes.
Inductive value : Type :=
| VNone
| VBool (b : bool)
| VInt (z : Z)
| VFloat (f : spec_float)
| VStr (s : string)
| VList (l : list value)
| VDict (d : gmap string value)
| VObj (addr : nat) (truth : bool).
#[local] Set Elimination Schemes.

(** Python's truth test, the one [if not x] applies. *)
Definition truthy (v : value) : bool :=
  match v with
  | VNone => false
  | VBool b => b
  | VInt z => negb (z =? 0)%Z
  | VFloat f => match f with S754_zero _ => false | _ => true end
  | VStr s => negb (String.eqb s "")
  | VList l => match l with [] => false | _ => true end
  | VDict d => negb (bool_decide (d = ∅))
  | VObj _ truth => truth
  end.

Definition of_option {A} (f : A → value) (o : option A) : value :=
  match o with
  | Some a => f a
  | None => VNone
  end.

Definition VStrs (l : list string) : value := VList (VStr <$> l).

(** ** [langchain/llms/vllm.py] *)

Module Engine.

(** What the engine returns: one [RequestOutput] per prompt, each with
    its list of candidates. *)
Record CompletionOutput : Type := { text : string }.

Record RequestOutput : Type := {
  prompt : string;
  outputs : list CompletionOutput
}.

End Engine.

Module Vllm.

(** Calls into the [vllm] package, each with its outcome. *)
Inductive event : Type :=
| EvImport (module name : string) (outcome : result unit)
| EvLLM (kwargs : gmap string value) (outcome : result value)
| EvSamplingParams (kwargs : gmap string value) (outcome : result value)
| EvGenerate (client : value) (prompts : list string)
    (sampling_params : value)
    (outcome : result (list Engine.RequestOutput)).

(** The external collaborators: whether a name can be imported from
    [vllm], the two constructors, and the [generate] method of a client. *)
Record env : Type := {
  import_vllm : string → result unit;
  new_LLM : gmap string value → result value;
  new_SamplingParams : gmap string value → result value;
  client_generate :
    value → list string → value → result (list Engine.RequestOutput)
}.

Section calls.
Context (e : env).

(** [from vllm import name] *)
Definition import_from (name : string) : M event unit :=
  let r := import_vllm e name in
  emit (EvImport "vllm" name r);; lift r.

Definition call_LLM (kwargs : gmap string value) : M event value :=
  let r := new_LLM e kwargs in
  emit (EvLLM kwargs r);; lift r.

Definition call_SamplingParams (kwargs : gmap string value)
  : M event value :=
  let r := new_SamplingParams e kwargs in
  emit (EvSamplingParams kwargs r);; lift r.

Definition call_generate (client : value) (prompts : list string)
    (sampling_params : value) : M event (list Engine.RequestOutput) :=
  let r := client_generate e client prompts sampling_params in
  emit (EvGenerate client prompts sampling_params r);; lift r.
End calls.

(** [try: m  except ImportError: raise e'] *)
Definition except_ImportError {A} (m : M event A) (e' : exn) : M event A :=
  λ t, match m t with
       | (t', Raise (ImportError _)) => (t', Raise e')
       | r => r
       end.

(** [d[key]] *)
Definition getitem (d : gmap string value) (key : string) : M event value :=
  match d !! key with
  | Some v => mret v
  | None => raise (KeyError key)
  end.

(** [f(k1=v1, ..., **extra)]: the keyword arguments a call receives.  The
    argument after [**] must be a mapping, and a key given twice is a
    [TypeError].  The class of the exception is Python's; of its message
    only the shape is kept: Python's text also names the callee and picks
    the repeated key in the order of the mapping, which a finite map does
    not record. *)
Definition keywords (named : list (string * value)) (extra : value)
  : M event (gmap string value) :=
  match extra with
  | VDict d =>
      match List.find (λ kv, bool_decide (is_Some (d !! kv.1))) named with
      | Some kv =>
          raise (TypeError ("got multiple values for keyword argument '"
                            +:+ kv.1 +:+ "'"))
      | None => mret (d ∪ list_to_map named)
      end
  | _ => raise (TypeError "argument after ** must be a mapping")
  end.

Definition import_hint : string :=
  "Could not import vllm python package. " +:+
  "Please install it with `pip install vllm`.".

(** The root validator: [values] maps the field names to their validated
    values. *)
Definition validate_environment (e : env) (values : gmap string value)
  : M event (gmap string value) :=
  except_ImportError (import_from e "LLM") (ImportError import_hint);;
  vllm_obj ← getitem values "vllm_obj";
  if negb (truthy vllm_obj) then
    model ← getitem values "model";
    tensor_parallel_size ← getitem values "tensor_parallel_size";
    trust_remote_code ← getitem values "trust_remote_code";
    dtype ← getitem values "dtype";
    download_dir ← getitem values "download_dir";
    vllm_kwargs ← getitem values "vllm_kwargs";
    kwargs ← keywords [("model", model);
                       ("tensor_parallel_size", tensor_parallel_size);
                       ("trust_remote_code", trust_remote_code);
                       ("dtype", dtype);
                       ("download_dir", download_dir)] vllm_kwargs;
    client ← call_LLM e kwargs;
    mret (<["client" := client]> values)
  else
    vllm_obj ← getitem values "vllm_obj";
    mret (<["client" := vllm_obj]> values).

(** The fields of a validated [VLLM] instance. *)
Record VLLM : Type := {
  model : string;
  tensor_parallel_size : option Z;
  trust_remote_code : option bool;
  n : Z;
  best_of : option Z;
  presence_penalty : spec_float;
  frequency_penalty : spec_float;
  temperature : spec_float;
  top_p : spec_float;
  top_k : Z;
  use_beam_search : bool;
  stop : option (list string);
  ignore_eos : bool;
  max_new_tokens : Z;
  logprobs : option Z;
  dtype : string;
  download_dir : option string;
  vllm_obj : value;
  vllm_sampling_params_obj : value;
  vllm_kwargs : gmap string value;
  client : value
}.

Definition _default_params (self : VLLM) : gmap string value :=
  list_to_map [
    ("n", VInt (n self));
    ("best_of", of_option VInt (best_of self));
    ("max_tokens", VInt (max_new_tokens self));
    ("top_k", VInt (top_k self));
    ("top_p", VFloat (top_p self));
    ("temperature", VFloat (temperature self));
    ("presence_penalty", VFloat (presence_penalty self));
    ("frequency_penalty", VFloat (frequency_penalty self));
    ("stop", of_option VStrs (stop self));
    ("ignore_eos", VBool (ignore_eos self));
    ("use_beam_search", VBool (use_beam_search self));
    ("logprobs", of_option VInt (logprobs self)) ].

Record Generation : Type := { text : string }.

Record LLMResult : Type := { generations : list (list Generation) }.

(** [xs[0]] *)
Definition first {A} (xs : list A) : M event A :=
  match xs with
  | x :: _ => mret x
  | [] => raise (IndexError "list index out of range")
  end.

(** The loop over [outputs]: [generations] is the list built so far. *)
Fixpoint collect (outputs : list Engine.RequestOutput)
    (generations : list (list Generation))
  : M event (list (list Generation)) :=
  match outputs with
  | [] => mret generations
  | output :: rest =>
      candidate ← first (Engine.outputs output);
      let text := Engine.text candidate in
      collect rest (generations ++ [[ {| text := text |} ]])
  end.

(** [{**self._default_params, **kwargs, "stop": stop}]: a later entry
    replaces an earlier one with the same key. *)
Definition merged_params (self : VLLM) (stop : value)
    (kwargs : gmap string value) : gmap string value :=
  <["stop" := stop]> (kwargs ∪ _default_params self).

Definition _generate (e : env) (self : VLLM) (prompts : list string)
    (stop : value) (run_manager : value) (kwargs : gmap string value)
  : M event LLMResult :=
  sampling_params ←
    (if negb (truthy (vllm_sampling_params_obj self)) then
       import_from e "SamplingParams";;
       let params := merged_params self stop kwargs in
       call_SamplingParams e params
     else mret (vllm_sampling_params_obj self));
  outputs ← call_generate e (client self) prompts sampling_params;
  generations ← collect outputs [];
  mret {| generations := generations |}.

Definition _llm_type : string := "vllm".

End Vllm.

Module VllmOpenAI.

(** The part of a [VLLMOpenAI] instance that [_invocation_params] reads.
    [_default_params] is the property inherited from [BaseOpenAI], which
    lives in [langchain/llms/openai.py]; its value is taken as a given
    map. *)
Record VLLMOpenAI : Type := {
  openai_api_key : value;
  openai_api_base : value;
  model_name : string;
  _default_params : gmap string value
}.

Definition _invocation_params (self : VLLMOpenAI) : gmap string value :=
  let openai_creds : gmap string value :=
    <["api_base" := openai_api_base self]>
      (<["api_key" := openai_api_key self]> ∅) in
  <["logit_bias" := VNone]>
    (_default_params self
     ∪ (openai_creds ∪ {["model" := VStr (model_name self)]})).

Definition _llm_type : string := "vllm-openai".

End VllmOpenAI.

(** * Verification *)

(** ** The definitions at work *)

Example strip_requirements :
  Str.strip (" vllm" +:+ String newline ("ray " +:+ String newline ""))
  = "vllm" +:+ String newline "ray".
Proof. reflexivity. Qed.

Example split_requirements :
  Str.split newline ("vllm" +:+ String newline "ray") = ["vllm"; "ray"].
Proof. reflexivity. Qed.

Example split_empty : Str.split newline "" = [""].
Proof. reflexivity. Qed.

Example dirname_absolute : Path.dirname "/repo/setup.py" = "/repo".
Proof. reflexivity. Qed.

Example dirname_bare : Path.dirname "setup.py" = "".
Proof. reflexivity. Qed.

Example dirname_root : Path.dirname "//setup.py" = "//".
Proof. reflexivity. Qed.

Example join_relative : Path.join "" ["requirements.txt"] = "requirements.txt".
Proof. reflexivity. Qed.

Example join_absolute : Path.join "/repo" ["a"; "/b"; "c"] = "/b/c".
Proof. reflexivity. Qed.

Example search_single_quotes :
  Re.group1 <$> Re.search Setup.version_pattern "__version__ = '0.1'" true
  = Some (Some "0.1").
Proof. reflexivity. Qed.

Example search_indented :
  Re.search Setup.version_pattern " __version__ = '0.1'" true = None.
Proof. reflexivity. Qed.

Example search_second_line :
  Re.group1 <$>
    Re.search Setup.version_pattern
      ("import os" +:+ String newline "__version__ = '0.1' # x") true
  = Some (Some "0.1").
Proof. reflexivity. Qed.

Example search_second_line_not_multiline :
  Re.search Setup.version_pattern
    ("import os" +:+ String newline "__version__ = '0.1'") false
  = None.
Proof. reflexivity. Qed.

Example truthy_values :
  truthy <$> [VNone; VInt 0; VInt 3; VStr ""; VList []; VDict ∅;
              VObj 4 true; VFloat (S754_zero true)]
  = [false; false; true; false; false; false; true; false].
Proof. reflexivity. Qed.

(** ** Facts about strings *)

Section strings.
Implicit Types s t u : string.

Lemma sapp_nil_l s : "" +:+ s = s.
Proof. reflexivity. Qed.

Lemma sapp_cons c s t : String c s +:+ t = String c (s +:+ t).
Proof. reflexivity. Qed.

Lemma sapp_nil_r s : s +:+ "" = s.
Proof. induction s as [|c s IH]; [done | by rewrite sapp_cons, IH]. Qed.

Lemma sapp_assoc s t u : (s +:+ t) +:+ u = s +:+ (t +:+ u).
Proof.
  induction s as [|c s IH]; [done | by rewrite !sapp_cons, IH].
Qed.

Lemma sapp_snoc s c t : (s +:+ String c "") +:+ t = s +:+ String c t.
Proof. by rewrite sapp_assoc. Qed.
End strings.

(** ** Running a computation *)

(** Expose the trace and the result of a computation built from the
    monad's operations. *)
Ltac step_monad :=
  unfold mbind, M_bind, bind, mret, M_ret, ret, raise, emit, lift; simpl.

(** ** The trace only grows *)

Definition grows {E A} (m : M E A) : Prop :=
  ∀ t, ∃ t', (m t).1 = t ++ t'.

Section grows.
Context {E : Type}.

Lemma ret_grows {A} (a : A) : grows (mret a : M E A).
Proof. intros t. exists []. by rewrite app_nil_r. Qed.

Lemma raise_grows {A} ex : grows (raise ex : M E A).
Proof. intros t. exists []. by rewrite app_nil_r. Qed.

Lemma lift_grows {A} (r : result A) : grows (lift r : M E A).
Proof. intros t. exists []. by rewrite app_nil_r. Qed.

Lemma emit_grows (ev : E) : grows (emit ev).
Proof. intros t. by exists [ev]. Qed.

Lemma bind_grows {A B} (m : M E A) (k : A → M E B) :
  grows m → (∀ a, grows (k a)) → grows (m ≫= k).
Proof.
  intros Hm Hk t. unfold mbind, M_bind, bind.
  destruct (Hm t) as [t1 H1]. destruct (m t) as [t' [a|ex]]; simpl in *.
  - destruct (Hk a t') as [t2 H2]. exists (t1 ++ t2).
    by rewrite H2, H1, app_assoc.
  - by exists t1.
Qed.
End grows.

Create HintDb grows discriminated.
#[global] Hint Resolve ret_grows raise_grows lift_grows emit_grows : grows.
#[global] Hint Extern 2 (grows (_ ≫= _)) =>
  apply bind_grows; [|intros ?] : grows.

(** ** The matcher on the version pattern *)

Module ReFacts.
Import Re.

Lemma exec_many_eq ml a ns prev s k :
  exec ml (Many a :: ns) prev s k =
  match s with
  | String c s' =>
      if accepts a c then
        match exec ml (Many a :: ns) (Some c) s' (push c k) with
        | Some r => Some r
        | None => exec ml ns prev s k
        end
      else exec ml ns prev s k
  | EmptyString => exec ml ns prev s k
  end.
Proof. by destruct s. Qed.

(** The character before the position reached after reading [pre]. *)
Fixpoint last_or (prev : option ascii) (pre : string) : option ascii :=
  match pre with
  | EmptyString => prev
  | String c pre' => last_or (Some c) pre'
  end.

Fixpoint strip_prefix (lit s : string) : option string :=
  match lit with
  | EmptyString => Some s
  | String c lit' =>
      match s with
      | String d s' => if Ascii.eqb d c then strip_prefix lit' s' else None
      | EmptyString => None
      end
  end.

Lemma strip_prefix_Some lit s r :
  strip_prefix lit s = Some r ↔ s = lit +:+ r.
Proof.
  revert s. induction lit as [|c lit IH]; intros s; simpl.
  - rewrite sapp_nil_l. split; congruence.
  - rewrite sapp_cons. destruct s as [|d s]; [split; discriminate|].
    destruct (Ascii.eqb_spec d c) as [->|Hne].
    + rewrite IH. split; congruence.
    + split; [discriminate | congruence].
Qed.

Lemma exec_literal ml lit ns prev s g :
  exec ml (literal lit ++ ns) prev s {| cur := None; grp := g |} =
  match strip_prefix lit s with
  | Some s' => exec ml ns (last_or prev lit) s' {| cur := None; grp := g |}
  | None => None
  end.
Proof.
  revert prev s. induction lit as [|c lit IH]; intros prev s; [done|].
  cbn [literal list_ascii_of_string fmap list_fmap app exec strip_prefix
       last_or accepts].
  destruct s as [|d s]; [done|].
  destruct (Ascii.eqb_spec d c) as [->|Hne]; [|done]. apply IH.
Qed.

End ReFacts.

(** ** The adapters *)

Module VllmFacts.
Import Vllm.

(** What [_generate] does once the sampling parameters are resolved. *)
Definition after_params (e : env) (self : VLLM) (prompts : list string)
    (sampling_params : value) : M event LLMResult :=
  outputs ← call_generate e (client self) prompts sampling_params;
  generations ← collect outputs [];
  mret {| generations := generations |}.

(** The generation group of one output of the engine. *)
Definition group_of (o : Engine.RequestOutput) : option (list Generation) :=
  match Engine.outputs o with
  | c :: _ => Some [ {| text := Engine.text c |} ]
  | [] => None
  end.

Lemma collect_run outs acc t :
  collect outs acc t =
  (t, match mapM group_of outs with
      | Some gs => Ok (acc ++ gs)
      | None => Raise (IndexError "list index out of range")
      end).
Proof.
  revert acc. induction outs as [|o outs IH]; intros acc.
  - simpl. by rewrite app_nil_r.
  - change (mapM group_of (o :: outs))
      with (y ← group_of o; k ← mapM group_of outs; mret (y :: k)).
    cbn [collect]. unfold mbind at 1, M_bind, bind, first.
    destruct (Engine.outputs o) as [|c cs] eqn:Ho.
    + replace (group_of o) with (@None (list Generation))
        by (unfold group_of; by rewrite Ho).
      done.
    + replace (group_of o) with (Some [ {| text := Engine.text c |} ])
        by (unfold group_of; by rewrite Ho).
      unfold mret at 1, M_ret, ret. rewrite IH.
      destruct (mapM group_of outs) as [gs|]; simpl; [|done].
      by rewrite <- app_assoc.
Qed.

Lemma after_params_run e self prompts sp t :
  after_params e self prompts sp t =
  let r := client_generate e (client self) prompts sp in
  (t ++ [EvGenerate (client self) prompts sp r],
   match r with
   | Ok outs =>
       match mapM group_of outs with
       | Some gs => Ok {| generations := gs |}
       | None => Raise (IndexError "list index out of range")
       end
   | Raise ex => Raise ex
   end).
Proof.
  unfold after_params, call_generate, mbind, M_bind, bind, emit, lift.
  simpl. destruct (client_generate e (client self) prompts sp) as [outs|ex];
    [|done].
  rewrite collect_run. by destruct (mapM group_of outs).
Qed.

Lemma generate_run e self prompts stop rm kwargs t :
  _generate e self prompts stop rm kwargs t =
  if truthy (vllm_sampling_params_obj self) then
    after_params e self prompts (vllm_sampling_params_obj self) t
  else
    let i := import_vllm e "SamplingParams" in
    let t1 := t ++ [EvImport "vllm" "SamplingParams" i] in
    match i with
    | Raise ex => (t1, Raise ex)
    | Ok _ =>
        let params := merged_params self stop kwargs in
        let r := new_SamplingParams e params in
        let t2 := t1 ++ [EvSamplingParams params r] in
        match r with
        | Ok sp => after_params e self prompts sp t2
        | Raise ex => (t2, Raise ex)
        end
    end.
Proof.
  unfold _generate, after_params.
  destruct (truthy (vllm_sampling_params_obj self)); simpl; [done|].
  unfold import_from, call_SamplingParams, mbind, M_bind, bind, emit, lift.
  simpl. destruct (import_vllm e "SamplingParams") as [[]|ex]; [|done].
  by destruct (new_SamplingParams e (merged_params self stop kwargs)).
Qed.

Lemma merged_params_stop self stop kwargs :
  merged_params self stop kwargs !! "stop" = Some stop.
Proof. apply lookup_insert_eq. Qed.

Lemma default_params_stop self :
  _default_params self !! "stop" = Some (of_option VStrs (Vllm.stop self)).
Proof. done. Qed.

(** The events of a run of [_generate] on the merging path, whatever the
    collaborators answer. *)
Lemma generate_merge_trace e self prompts stop rm kwargs ev :
  truthy (vllm_sampling_params_obj self) = false →
  ev ∈ (run (_generate e self prompts stop rm kwargs)).1 →
  ev = EvImport "vllm" "SamplingParams" (import_vllm e "SamplingParams")
  ∨ (import_vllm e "SamplingParams" = Ok ()
     ∧ ev = EvSamplingParams (merged_params self stop kwargs)
              (new_SamplingParams e (merged_params self stop kwargs)))
  ∨ (import_vllm e "SamplingParams" = Ok ()
     ∧ ∃ sp,
         new_SamplingParams e (merged_params self stop kwargs) = Ok sp
         ∧ ev = EvGenerate (client self) prompts sp
                  (client_generate e (client self) prompts sp)).
Proof.
  intros Hf. unfold run. rewrite generate_run, Hf. simpl.
  destruct (import_vllm e "SamplingParams") as [[]|ex]; simpl.
  2: { rewrite !elem_of_cons, elem_of_nil. intuition. }
  destruct (new_SamplingParams e (merged_params self stop kwargs))
    as [sp|ex] eqn:Hsp; simpl.
  - rewrite after_params_run. simpl.
    rewrite !elem_of_cons, elem_of_nil. intuition eauto.
  - rewrite !elem_of_cons, elem_of_nil. intuition.
Qed.

(** Once the client's [generate] has returned, the result of [_generate]
    is decided by the outputs alone. *)
Lemma generate_after_generate e self prompts stop rm kwargs c ps sp outs :
  EvGenerate c ps sp (Ok outs)
    ∈ (run (_generate e self prompts stop rm kwargs)).1 →
  c = client self ∧ ps = prompts
  ∧ (run (_generate e self prompts stop rm kwargs)).2
    = match mapM group_of outs with
      | Some gs => Ok {| generations := gs |}
      | None => Raise (IndexError "list index out of range")
      end.
Proof.
  unfold run. rewrite generate_run.
  destruct (truthy (vllm_sampling_params_obj self)).
  - rewrite after_params_run. simpl.
    rewrite !elem_of_cons, elem_of_nil. intros [Heq|[]].
    injection Heq as -> -> -> Hr. by rewrite <- Hr.
  - simpl. destruct (import_vllm e "SamplingParams") as [[]|ex]; simpl.
    2: { rewrite !elem_of_cons, elem_of_nil. by intros [|[]]. }
    destruct (new_SamplingParams e _) as [sp'|ex]; simpl.
    2: { rewrite !elem_of_cons, elem_of_nil. by intros [|[|[]]]. }
    rewrite after_params_run. simpl.
    rewrite !elem_of_cons, elem_of_nil. intros [|[|[Heq|[]]]]; try done.
    injection Heq as -> -> -> Hr. by rewrite <- Hr.
Qed.

Lemma group_of_Some o g :
  group_of o = Some g ↔
  ∃ c cs, Engine.outputs o = c :: cs ∧ g = [ {| text := Engine.text c |} ].
Proof.
  unfold group_of. destruct (Engine.outputs o) as [|c cs]; split.
  - done.
  - by intros (? & ? & ? & _).
  - intros [= <-]. eauto.
  - intros (c' & cs' & [= <- <-] & ->). done.
Qed.

Lemma mapM_group_of_total outs :
  Forall (λ o, Engine.outputs o ≠ []) outs → is_Some (mapM group_of outs).
Proof.
  intros Hall. apply mapM_is_Some. eapply Forall_impl; [exact Hall|].
  intros o Ho. unfold compose, group_of. simpl in Ho.
  destruct (Engine.outputs o); [done | eauto].
Qed.

(** The keyword arguments [validate_environment] builds for the client
    constructor. *)
Definition LLM_named (model tps trc dtype download_dir : value)
  : list (string * value) :=
  [("model", model); ("tensor_parallel_size", tps);
   ("trust_remote_code", trc); ("dtype", dtype);
   ("download_dir", download_dir)].

Definition LLM_names : list string :=
  ["model"; "tensor_parallel_size"; "trust_remote_code"; "dtype";
   "download_dir"].

Lemma getitem_grows d k : grows (getitem d k).
Proof. unfold getitem. destruct (d !! k); auto with grows. Qed.

Lemma keywords_grows named extra : grows (keywords named extra).
Proof.
  unfold keywords. destruct extra; auto with grows.
  destruct (List.find _ _); auto with grows.
Qed.

Lemma call_LLM_grows e kw : grows (call_LLM e kw).
Proof. unfold call_LLM. auto with grows. Qed.

#[local] Hint Resolve getitem_grows keywords_grows call_LLM_grows : grows.

(** The import is the first event of every construction. *)
Lemma validate_import_run e values :
  ∃ t r,
    run (validate_environment e values)
    = (EvImport "vllm" "LLM" (import_vllm e "LLM") :: t, r).
Proof.
  unfold run, validate_environment.
  unfold mbind at 1, M_bind, bind at 1.
  unfold except_ImportError, import_from, mbind at 1, M_bind, bind at 1.
  unfold emit, lift. simpl.
  destruct (import_vllm e "LLM") as [[]|ex].
  2: { destruct ex; eauto. }
  match goal with |- context [?k [?ev]] =>
    assert (grows k) as Hk; [|destruct (Hk [ev]) as [t' Ht']] end.
  { apply bind_grows; [auto with grows|]. intros obj.
    destruct (negb (truthy obj)); auto 20 with grows. }
  match goal with |- context [?k [?ev]] =>
    destruct (k [ev]) as [t r] end.
  simpl in Ht'. subst t. eauto.
Qed.

Lemma validate_import_error_run e values msg :
  import_vllm e "LLM" = Raise (ImportError msg) →
  run (validate_environment e values)
  = ([EvImport "vllm" "LLM" (Raise (ImportError msg))],
     Raise (ImportError import_hint)).
Proof.
  intros Hi.
  unfold run, validate_environment, except_ImportError, import_from.
  step_monad. by rewrite Hi.
Qed.

Lemma validate_reuse_run e values obj :
  import_vllm e "LLM" = Ok () →
  values !! "vllm_obj" = Some obj →
  truthy obj = true →
  run (validate_environment e values)
  = ([EvImport "vllm" "LLM" (Ok ())], Ok (<["client" := obj]> values)).
Proof.
  intros Hi Hobj Ht.
  unfold run, validate_environment, except_ImportError, import_from,
    getitem.
  step_monad.
  rewrite Hi. simpl. rewrite Hobj. simpl. rewrite Ht. done.
Qed.

Lemma validate_construct_run e values obj m tps trc dt dd d :
  import_vllm e "LLM" = Ok () →
  values !! "vllm_obj" = Some obj →
  truthy obj = false →
  values !! "model" = Some m →
  values !! "tensor_parallel_size" = Some tps →
  values !! "trust_remote_code" = Some trc →
  values !! "dtype" = Some dt →
  values !! "download_dir" = Some dd →
  values !! "vllm_kwargs" = Some (VDict d) →
  Forall (λ k, d !! k = None) LLM_names →
  let kwargs := d ∪ list_to_map (LLM_named m tps trc dt dd) in
  let r := new_LLM e kwargs in
  run (validate_environment e values)
  = ([EvImport "vllm" "LLM" (Ok ()); EvLLM kwargs r],
     match r with
     | Ok c => Ok (<["client" := c]> values)
     | Raise ex => Raise ex
     end).
Proof.
  intros Hi Hobj Hf Hm Htps Htrc Hdt Hdd Hkw Hnone kwargs r.
  unfold run, validate_environment, except_ImportError, import_from,
    getitem.
  step_monad.
  rewrite Hi. simpl. rewrite Hobj. simpl. rewrite Hf. simpl.
  rewrite Hm. simpl. rewrite Htps. simpl. rewrite Htrc. simpl.
  rewrite Hdt. simpl. rewrite Hdd. simpl. rewrite Hkw. simpl.
  unfold LLM_names in Hnone.
  repeat match goal with
         | H : Forall _ (_ :: _) |- _ =>
             apply Forall_cons in H as [-> H]
         end.
  simpl. subst r kwargs. unfold LLM_named. simpl.
  by destruct (new_LLM e _).
Qed.

End VllmFacts.

(** * The claims about [VLLM._generate] *)

Section generate_claims.
Import Vllm VllmFacts.

(** Example collaborators and an example instance: the engine answers
    every prompt with two candidates. *)
Definition echo_outputs (ps : list string) : list Engine.RequestOutput :=
  (λ p, {| Engine.prompt := p;
           Engine.outputs := [ {| Engine.text := p +:+ "!" |};
                               {| Engine.text := p +:+ "?" |} ] |}) <$> ps.

Definition echo_engine : env := {|
  import_vllm := λ _, Ok ();
  new_LLM := λ _, Ok (VObj 1 true);
  new_SamplingParams := λ _, Ok (VObj 2 true);
  client_generate := λ _ ps _, Ok (echo_outputs ps)
|}.

Definition example_llm : VLLM := {|
  model := "m"; tensor_parallel_size := Some 1%Z;
  trust_remote_code := Some false; n := 2; best_of := None;
  presence_penalty := S754_zero false; frequency_penalty := S754_zero false;
  temperature := S754_finite false 1 0; top_p := S754_finite false 1 0;
  top_k := (-1)%Z; use_beam_search := false; stop := Some ["END"];
  ignore_eos := false; max_new_tokens := 512%Z; logprobs := None;
  dtype := "auto"; download_dir := None; vllm_obj := VNone;
  vllm_sampling_params_obj := VNone; vllm_kwargs := ∅;
  client := VObj 1 true
|}.

(** C3: when [_generate] is given a stop override other than [None] and no
    pre-built sampling-params object is configured, every construction of
    sampling parameters in the run receives the override as its [stop]
    entry, whatever the default stop list and the other keyword options
    are; the construction takes place as soon as the import succeeds, and
    the object it returns is the one handed to [generate]. *)
Theorem generate_stop_override_wins e self prompts stop rm kwargs :
  stop ≠ VNone →
  truthy (vllm_sampling_params_obj self) = false →
  let trace := (run (_generate e self prompts stop rm kwargs)).1 in
  (∀ kw r, EvSamplingParams kw r ∈ trace → kw !! "stop" = Some stop)
  ∧ (import_vllm e "SamplingParams" = Ok () →
     ∃ kw r, EvSamplingParams kw r ∈ trace)
  ∧ (∀ c ps sp r, EvGenerate c ps sp r ∈ trace →
     ∃ kw, EvSamplingParams kw (Ok sp) ∈ trace).
Proof.
  intros _ Hf trace. split; [|split].
  - intros kw r Hin.
    destruct (generate_merge_trace _ _ _ _ _ _ _ Hf Hin)
      as [?|[[_ Heq]|(_ & sp & _ & ?)]]; try done.
    injection Heq as -> _. apply merged_params_stop.
  - intros Hi. exists (merged_params self stop kwargs).
    exists (new_SamplingParams e (merged_params self stop kwargs)).
    subst trace. unfold run. rewrite generate_run, Hf, Hi. simpl.
    destruct (new_SamplingParams e _); [rewrite after_params_run|]; simpl.
    all: apply list_elem_of_further, list_elem_of_here.
  - intros c ps sp r Hin.
    destruct (generate_merge_trace _ _ _ _ _ _ _ Hf Hin)
      as [?|[[_ ?]|(Hi & sp' & Hsp & Heq)]]; try done.
    injection Heq as _ _ -> _. eexists. subst trace. unfold run.
    rewrite generate_run, Hf, Hi. simpl. rewrite Hsp, after_params_run.
    simpl. apply list_elem_of_further, list_elem_of_here.
Qed.

Lemma generate_stop_override_wins_witness :
  let trace :=
    (run (_generate echo_engine example_llm ["p"] (VStrs ["."]) VNone
            {[ "temperature" := VInt 0 ]})).1 in
  (∀ kw r, EvSamplingParams kw r ∈ trace → kw !! "stop" = Some (VStrs ["."]))
  ∧ (import_vllm echo_engine "SamplingParams" = Ok () →
     ∃ kw r, EvSamplingParams kw r ∈ trace)
  ∧ (∀ c ps sp r, EvGenerate c ps sp r ∈ trace →
     ∃ kw, EvSamplingParams kw (Ok sp) ∈ trace).
Proof.
  apply (generate_stop_override_wins echo_engine example_llm ["p"]
           (VStrs ["."]) VNone {[ "temperature" := VInt 0 ]});
    [discriminate | reflexivity].
Defined.

(** C9: when [_generate] is called with [stop = None] and no pre-built
    sampling-params object is configured, the [stop] entry handed to the
    construction of the sampling parameters is [None], although the
    defaults being merged carry the configured stop list under that key:
    the per-call value replaces the default unconditionally. *)
Theorem generate_stop_none_replaces_default e self prompts rm kwargs :
  truthy (vllm_sampling_params_obj self) = false →
  let trace := (run (_generate e self prompts VNone rm kwargs)).1 in
  _default_params self !! "stop" = Some (of_option VStrs (stop self))
  ∧ merged_params self VNone kwargs !! "stop" = Some VNone
  ∧ (∀ kw r, EvSamplingParams kw r ∈ trace → kw !! "stop" = Some VNone)
  ∧ (import_vllm e "SamplingParams" = Ok () →
     EvSamplingParams (merged_params self VNone kwargs)
       (new_SamplingParams e (merged_params self VNone kwargs)) ∈ trace).
Proof.
  intros Hf trace. split; [done|]. split; [apply merged_params_stop|].
  split.
  - intros kw r Hin.
    destruct (generate_merge_trace _ _ _ _ _ _ _ Hf Hin)
      as [?|[[_ Heq]|(_ & sp & _ & ?)]]; try done.
    injection Heq as -> _. apply merged_params_stop.
  - intros Hi. subst trace. unfold run.
    rewrite generate_run, Hf, Hi. simpl.
    destruct (new_SamplingParams e _); [rewrite after_params_run|]; simpl.
    all: apply list_elem_of_further, list_elem_of_here.
Qed.

Lemma generate_stop_none_replaces_default_witness :
  _default_params example_llm !! "stop" = Some (VStrs ["END"])
  ∧ (∀ kw r,
       EvSamplingParams kw r
         ∈ (run (_generate echo_engine example_llm ["p"] VNone VNone ∅)).1 →
       kw !! "stop" = Some VNone).
Proof.
  pose proof (generate_stop_none_replaces_default echo_engine example_llm
                ["p"] VNone ∅ eq_refl) as (Hd & _ & Hall & _).
  split; [exact Hd | exact Hall].
Defined.

(** C8: when a pre-built sampling-params object is configured (it passes
    the truth test of [_generate]), the run consists of the single call of
    the client's [generate] with the prompts and that very object:
    nothing is imported, no sampling parameters are constructed, and the
    outcome does not depend on the stop override or on the keyword
    options. *)
Theorem generate_uses_prebuilt_sampling_params
    e self prompts stop rm kwargs :
  truthy (vllm_sampling_params_obj self) = true →
  (run (_generate e self prompts stop rm kwargs)).1
  = [EvGenerate (client self) prompts (vllm_sampling_params_obj self)
       (client_generate e (client self) prompts
          (vllm_sampling_params_obj self))]
  ∧ ∀ stop' rm' kwargs',
      run (_generate e self prompts stop' rm' kwargs')
      = run (_generate e self prompts stop rm kwargs).
Proof.
  intros Ht. unfold run. split.
  - by rewrite generate_run, Ht, after_params_run.
  - intros stop' rm' kwargs'. by rewrite !generate_run, Ht.
Qed.

Definition prebuilt_llm : VLLM := {|
  model := "m"; tensor_parallel_size := Some 1%Z;
  trust_remote_code := Some false; n := 1; best_of := None;
  presence_penalty := S754_zero false; frequency_penalty := S754_zero false;
  temperature := S754_finite false 1 0; top_p := S754_finite false 1 0;
  top_k := (-1)%Z; use_beam_search := false; stop := Some ["END"];
  ignore_eos := false; max_new_tokens := 512%Z; logprobs := None;
  dtype := "auto"; download_dir := None; vllm_obj := VObj 1 true;
  vllm_sampling_params_obj := VObj 9 true; vllm_kwargs := ∅;
  client := VObj 1 true
|}.

Lemma generate_uses_prebuilt_sampling_params_witness :
  (run (_generate echo_engine prebuilt_llm ["p"] (VStrs ["."]) VNone ∅)).1
  = [EvGenerate (VObj 1 true) ["p"] (VObj 9 true)
       (client_generate echo_engine (VObj 1 true) ["p"] (VObj 9 true))].
Proof.
  exact (proj1 (generate_uses_prebuilt_sampling_params echo_engine
                  prebuilt_llm ["p"] (VStrs ["."]) VNone ∅ eq_refl)).
Defined.

(** C5: once the client's [generate] has returned its outputs, every
    output with at least one candidate has, in the result of [_generate],
    a generation group at the same index that holds exactly one candidate,
    whose text is the text of the first candidate of that output, however
    many candidates the output has; and [_generate] does return a result
    when every output has a candidate. *)
Theorem generate_surfaces_first_candidate
    e self prompts stop rm kwargs c ps sp outs :
  EvGenerate c ps sp (Ok outs)
    ∈ (run (_generate e self prompts stop rm kwargs)).1 →
  (∀ res i o c1 cs,
     (run (_generate e self prompts stop rm kwargs)).2 = Ok res →
     outs !! i = Some o →
     Engine.outputs o = c1 :: cs →
     generations res !! i = Some [ {| text := Engine.text c1 |} ])
  ∧ (Forall (λ o, Engine.outputs o ≠ []) outs →
     ∃ res, (run (_generate e self prompts stop rm kwargs)).2 = Ok res).
Proof.
  intros Hin. destruct (generate_after_generate _ _ _ _ _ _ _ _ _ _ Hin)
    as (_ & _ & Hres).
  rewrite Hres. clear Hres Hin. split.
  - intros res i o c1 cs Hok Hi Ho.
    destruct (mapM group_of outs) as [gs|] eqn:Hgs; [|done].
    injection Hok as <-. simpl.
    apply mapM_Some in Hgs.
    destruct (Forall2_lookup_l _ _ _ _ _ Hgs Hi) as (g & Hg & Hog).
    apply group_of_Some in Hog as (c' & cs' & Ho' & ->).
    rewrite Ho in Ho'. by injection Ho' as <- <-.
  - intros Hall. destruct (mapM_group_of_total outs Hall) as [gs ->]. eauto.
Qed.

Lemma generate_surfaces_first_candidate_witness :
  ∃ res,
    (run (_generate echo_engine example_llm ["p"; "q"] VNone VNone ∅)).2
      = Ok res
    ∧ generations res !! 1 = Some [ {| text := "q!" |} ].
Proof.
  destruct (generate_surfaces_first_candidate echo_engine example_llm
              ["p"; "q"] VNone VNone ∅ (VObj 1 true) ["p"; "q"]
              (VObj 2 true) (echo_outputs ["p"; "q"]))
    as [Hgroup Hreturns].
  - vm_compute. apply list_elem_of_further, list_elem_of_further,
      list_elem_of_here.
  - destruct Hreturns as [res Hres]; [repeat constructor; discriminate|].
    exists res. split; [exact Hres|].
    exact (Hgroup res 1
             {| Engine.prompt := "q";
                Engine.outputs := [ {| Engine.text := "q!" |};
                                    {| Engine.text := "q?" |} ] |}
             {| Engine.text := "q!" |} [ {| Engine.text := "q?" |} ]
             Hres eq_refl eq_refl).
Defined.

(** C4, as the code has it: when the client's [generate] returns one
    output per prompt, in the order of the prompts, and every output has
    at least one candidate, [_generate] returns a result with as many
    generation groups as there are prompts, and group [i] is the one made
    from the output of prompt [i]. *)
Theorem generate_one_group_per_prompt
    e self prompts stop rm kwargs c ps sp outs :
  EvGenerate c ps sp (Ok outs)
    ∈ (run (_generate e self prompts stop rm kwargs)).1 →
  Engine.prompt <$> outs = prompts →
  Forall (λ o, Engine.outputs o ≠ []) outs →
  ∃ res,
    (run (_generate e self prompts stop rm kwargs)).2 = Ok res
    ∧ length (generations res) = length prompts
    ∧ ∀ i p, prompts !! i = Some p →
        ∃ o c1 cs,
          outs !! i = Some o ∧ Engine.prompt o = p
          ∧ Engine.outputs o = c1 :: cs
          ∧ generations res !! i = Some [ {| text := Engine.text c1 |} ].
Proof.
  intros Hin Hps Hall.
  destruct (generate_after_generate _ _ _ _ _ _ _ _ _ _ Hin)
    as (_ & _ & Hres).
  destruct (mapM_group_of_total outs Hall) as [gs Hgs].
  rewrite Hgs in Hres. exists {| generations := gs |}.
  split; [done|]. simpl. apply mapM_Some in Hgs. split.
  - rewrite <- Hps, length_fmap. symmetry. by eapply Forall2_length.
  - intros i p Hi. rewrite <- Hps, list_lookup_fmap in Hi.
    destruct (outs !! i) as [o|] eqn:Ho; [|done].
    injection Hi as <-.
    destruct (Forall2_lookup_l _ _ _ _ _ Hgs Ho) as (g & Hg & Hog).
    apply group_of_Some in Hog as (c1 & cs & Hout & ->).
    by exists o, c1, cs.
Qed.

Lemma generate_one_group_per_prompt_witness :
  ∃ res,
    (run (_generate echo_engine example_llm ["p"; "q"] VNone VNone ∅)).2
      = Ok res
    ∧ length (generations res) = 2.
Proof.
  destruct (generate_one_group_per_prompt echo_engine example_llm
              ["p"; "q"] VNone VNone ∅ (VObj 1 true) ["p"; "q"]
              (VObj 2 true) (echo_outputs ["p"; "q"]))
    as (res & Hres & Hlen & _).
  - vm_compute. apply list_elem_of_further, list_elem_of_further,
      list_elem_of_here.
  - reflexivity.
  - repeat constructor; discriminate.
  - exists res. split; [exact Hres | exact Hlen].
Defined.

(** An engine whose output for a prompt has no candidate. *)
Definition silent_engine : env := {|
  import_vllm := λ _, Ok ();
  new_LLM := λ _, Ok (VObj 1 true);
  new_SamplingParams := λ _, Ok (VObj 2 true);
  client_generate := λ _ ps _,
    Ok ((λ p, {| Engine.prompt := p; Engine.outputs := [] |}) <$> ps)
|}.

(** C4 as stated fails: the client returns one output for the one prompt,
    in order, and [_generate] raises [IndexError] instead of returning a
    result with one generation group. *)
Lemma generate_one_group_per_prompt_counterexample :
  let outs := [ {| Engine.prompt := "p"; Engine.outputs := [] |} ] in
  let r := run (_generate silent_engine example_llm ["p"] VNone VNone ∅) in
  EvGenerate (VObj 1 true) ["p"] (VObj 2 true) (Ok outs) ∈ r.1
  ∧ Engine.prompt <$> outs = ["p"]
  ∧ r.2 = Raise (IndexError "list index out of range")
  ∧ ¬ ∃ res, r.2 = Ok res ∧ length (generations res) = 1.
Proof.
  intros outs r. split; [|split; [|split]].
  - vm_compute. apply list_elem_of_further, list_elem_of_further,
      list_elem_of_here.
  - reflexivity.
  - reflexivity.
  - intros (res & Hres & _). discriminate Hres.
Qed.

End generate_claims.

(** * The claims about construction and the truth tests *)

Section construction_claims.
Import Vllm VllmFacts.

(** The validated fields of a configuration with the given pre-built
    client. *)
Definition config_with (obj : value) : gmap string value :=
  list_to_map [
    ("model", VStr "facebook/opt-125m");
    ("tensor_parallel_size", VInt 1);
    ("trust_remote_code", VBool false);
    ("dtype", VStr "auto");
    ("download_dir", VNone);
    ("vllm_obj", obj);
    ("vllm_sampling_params_obj", VNone);
    ("vllm_kwargs", VDict ∅) ].

(** An environment in which the [vllm] package is not installed. *)
Definition no_vllm : env := {|
  import_vllm := λ _, Raise (ImportError "No module named 'vllm'");
  new_LLM := λ _, Raise (ExternalError "vllm is not installed");
  new_SamplingParams := λ _, Raise (ExternalError "vllm is not installed");
  client_generate := λ _ ps _, Ok (echo_outputs ps)
|}.

(** C1 as stated fails: with a pre-built client supplied, construction
    still imports the engine package first, and where the package is
    missing it raises [ImportError] and no client is set; where the
    package is present, the import is in the trace all the same. *)
Lemma validate_environment_reuse_counterexample :
  let obj := VObj 7 true in
  let r := run (validate_environment no_vllm (config_with obj)) in
  let r' := run (validate_environment echo_engine (config_with obj)) in
  config_with obj !! "vllm_obj" = Some obj
  ∧ r = ([EvImport "vllm" "LLM"
            (Raise (ImportError "No module named 'vllm'"))],
         Raise (ImportError import_hint))
  ∧ (¬ ∃ values', r.2 = Ok values' ∧ values' !! "client" = Some obj)
  ∧ EvImport "vllm" "LLM" (Ok ()) ∈ r'.1.
Proof.
  intros obj r r'. split; [reflexivity|]. split; [reflexivity|]. split.
  - intros (values' & Hr & _). discriminate Hr.
  - vm_compute. apply list_elem_of_here.
Qed.

(** C1, as the code has it: the import of the engine package is attempted
    in every construction.  When a pre-built client is supplied (it passes
    the truth test of the validator) and the import succeeds, the client is
    that very object and the import is the only event: no client is
    constructed.  When the import fails with an [ImportError], construction
    raises the [ImportError] with the installation hint, supplied client
    or not. *)
Theorem validate_environment_reuses_client e values obj :
  values !! "vllm_obj" = Some obj →
  truthy obj = true →
  (∃ t r, run (validate_environment e values)
          = (EvImport "vllm" "LLM" (import_vllm e "LLM") :: t, r))
  ∧ (import_vllm e "LLM" = Ok () →
     run (validate_environment e values)
     = ([EvImport "vllm" "LLM" (Ok ())], Ok (<["client" := obj]> values)))
  ∧ (∀ msg, import_vllm e "LLM" = Raise (ImportError msg) →
     run (validate_environment e values)
     = ([EvImport "vllm" "LLM" (Raise (ImportError msg))],
        Raise (ImportError import_hint))).
Proof.
  intros Hobj Ht. split; [apply validate_import_run|]. split.
  - intros Hi. by apply validate_reuse_run.
  - intros msg Hi. by apply validate_import_error_run.
Qed.

Lemma validate_environment_reuses_client_witness :
  run (validate_environment echo_engine (config_with (VObj 7 true)))
  = ([EvImport "vllm" "LLM" (Ok ())],
     Ok (<["client" := VObj 7 true]> (config_with (VObj 7 true)))).
Proof.
  apply (validate_environment_reuses_client echo_engine
           (config_with (VObj 7 true)) (VObj 7 true));
    reflexivity.
Defined.

(** A configured instance whose pre-built sampling parameters are an
    empty list. *)
Definition falsy_params_llm : VLLM := {|
  model := "m"; tensor_parallel_size := Some 1%Z;
  trust_remote_code := Some false; n := 1; best_of := None;
  presence_penalty := S754_zero false; frequency_penalty := S754_zero false;
  temperature := S754_finite false 1 0; top_p := S754_finite false 1 0;
  top_k := (-1)%Z; use_beam_search := false; stop := None;
  ignore_eos := false; max_new_tokens := 512%Z; logprobs := None;
  dtype := "auto"; download_dir := None; vllm_obj := VNone;
  vllm_sampling_params_obj := VList []; vllm_kwargs := ∅;
  client := VObj 1 true
|}.

End construction_claims.

(** * The claim about [VLLMOpenAI._invocation_params] *)

Section invocation_claims.
Import VllmOpenAI.

(** An instance whose inherited defaults carry an [api_key] and a
    [logit_bias] of their own, as extra model options can. *)
Definition shadowed_key : VLLMOpenAI := {|
  openai_api_key := VStr "sk-instance";
  openai_api_base := VStr "http://localhost:8000/v1";
  model_name := "facebook/opt-125m";
  _default_params :=
    {[ "temperature" := VInt 0;
       "logit_bias" := VDict {[ "50256" := VInt (-100) ]};
       "api_key" := VStr "sk-inherited" ]}
|}.

(** C6 as stated fails in its second part: the map need not hold the
    api key of the instance.  The inherited defaults are unpacked after
    the credentials, so an inherited [api_key] is the entry of the map
    and the key of the instance is nowhere in it; the [logit_bias] entry
    is [None] all the same. *)
Lemma invocation_params_counterexample :
  _invocation_params shadowed_key !! "logit_bias" = Some VNone
  ∧ _invocation_params shadowed_key !! "api_key" = Some (VStr "sk-inherited")
  ∧ _invocation_params shadowed_key !! "api_key"
    ≠ Some (openai_api_key shadowed_key)
  ∧ ¬ ∃ k, _invocation_params shadowed_key !! k
           = Some (openai_api_key shadowed_key).
Proof.
  split; [by vm_compute|]. split; [by vm_compute|]. split; [by vm_compute|].
  intros [k Hk]. unfold _invocation_params, shadowed_key in Hk.
  cbn [openai_api_key openai_api_base model_name _default_params] in Hk.
  apply lookup_insert_Some in Hk as [[_ Hk]|[_ Hk]]; [done|].
  apply lookup_union_Some_raw in Hk as [Hk|[Hnone Hk]].
  - apply lookup_insert_Some in Hk as [[_ Hk]|[_ Hk]]; [done|].
    apply lookup_insert_Some in Hk as [[_ Hk]|[_ Hk]]; [done|].
    by apply lookup_singleton_Some in Hk as [_ Hk].
  - apply lookup_union_Some_raw in Hk as [Hk|[_ Hk]].
    + apply lookup_insert_Some in Hk as [[_ Hk]|[_ Hk]]; [done|].
      apply lookup_insert_Some in Hk as [[<- _]|[_ Hk]]; [|done].
      by vm_compute in Hnone.
    + by apply lookup_singleton_Some in Hk as [_ Hk].
Qed.

(** C6, as the code has it: the invocation parameter map always has the
    entry [logit_bias] with the value [None], whatever the inherited
    defaults hold under that key; it holds every other inherited default
    with its value; and it has the entries [api_key], [api_base] and
    [model], which are the credentials and the model name of the instance
    wherever the inherited defaults do not themselves define that key,
    and the inherited value where they do. *)
Theorem invocation_params_null_logit_bias (self : VLLMOpenAI) :
  let params := _invocation_params self in
  let inherited := _default_params self in
  params !! "logit_bias" = Some VNone
  ∧ delete "logit_bias" inherited ⊆ params
  ∧ params !! "api_key"
    = Some (default (openai_api_key self) (inherited !! "api_key"))
  ∧ params !! "api_base"
    = Some (default (openai_api_base self) (inherited !! "api_base"))
  ∧ params !! "model"
    = Some (default (VStr (model_name self)) (inherited !! "model")).
Proof.
  intros params inherited. subst params. unfold _invocation_params.
  fold inherited. split; [apply lookup_insert_eq|]. split.
  - apply map_subseteq_spec. intros k v Hk.
    apply lookup_delete_Some in Hk as [Hne Hk].
    rewrite lookup_insert_ne by done.
    by apply lookup_union_Some_l.
  - repeat split.
    all: rewrite lookup_insert_ne by done.
    all: rewrite lookup_union.
    all: by destruct (inherited !! _).
Qed.

End invocation_claims.

(** * The claims about [setup.py] *)

Module SetupFacts.
Import Re ReFacts Setup.

Definition is_quote (c : ascii) : bool := mem c quotes.

(** The longest prefix without a quote character, and what follows it. *)
Fixpoint span_body (s : string) : string * string :=
  match s with
  | String c s' =>
      if is_quote c then (EmptyString, s)
      else let (v, r) := span_body s' in (String c v, r)
  | EmptyString => (EmptyString, EmptyString)
  end.

(** The pattern without its caret, matched at the start of [s]. *)
Definition match_version (s : string) : option string :=
  match strip_prefix "__version__ = " s with
  | Some (String q body) =>
      if is_quote q then
        match span_body body with
        | (v, String _ _) => Some v
        | (_, EmptyString) => None
        end
      else None
  | _ => None
  end.

(** The first position, from left to right, that starts a line and at
    which the pattern matches. *)
Fixpoint first_match (prev : option ascii) (s : string) : option string :=
  match (if at_bol true prev then match_version s else None) with
  | Some v => Some v
  | None =>
      match s with
      | String c s' => first_match (Some c) s'
      | EmptyString => None
      end
  end.

(** [s] reads: the version literal, a quote character, the text [v]
    without quote characters, a quote character, anything. *)
Definition version_at (s v : string) : Prop :=
  ∃ q1 q2 rest,
    is_quote q1 = true ∧ is_quote q2 = true
    ∧ Forall (λ c, is_quote c = false) (list_ascii_of_string v)
    ∧ s = "__version__ = " +:+ String q1 (v +:+ String q2 rest).

(** A position starts a line when nothing or a newline comes before it. *)
Definition starts_line (pre : string) : Prop :=
  pre = "" ∨ ∃ p, pre = p +:+ String newline "".

Definition matched (v : string) : caps := {| cur := None; grp := Some v |}.

Lemma exec_body body prev acc g :
  exec true [Many (NoneOf quotes); GroupClose; One (OneOf quotes)] prev body
    {| cur := Some acc; grp := g |}
  = match span_body body with
    | (v, String _ _) => Some (matched (acc +:+ v))
    | (_, EmptyString) => None
    end.
Proof.
  revert prev acc. induction body as [|c body IH]; intros prev acc.
  - reflexivity.
  - rewrite exec_many_eq. cbn [accepts span_body]. unfold is_quote.
    destruct (mem c quotes) eqn:Hc; cbn [negb].
    + cbn [exec accepts cur grp]. rewrite Hc. cbn [exec push cur grp fmap].
      by rewrite sapp_nil_r.
    + unfold push. cbn [cur grp fmap option_fmap option_map].
      rewrite IH. destruct (span_body body) as [v [|q r]].
      * cbn [exec accepts cur grp]. by rewrite Hc.
      * unfold matched. by rewrite sapp_snoc.
Qed.

Lemma exec_version prev s :
  exec true version_pattern prev s no_caps
  = if at_bol true prev then matched <$> match_version s else None.
Proof.
  unfold version_pattern. cbn [app exec].
  destruct (at_bol true prev); [|done].
  unfold no_caps. rewrite exec_literal. unfold match_version.
  destruct (strip_prefix "__version__ = " s) as [[|q body]|]; [done| |done].
  cbn [exec accepts]. fold (is_quote q).
  destruct (is_quote q); [|done].
  cbn [exec push cur grp fmap option_fmap option_map].
  rewrite exec_body. by destruct (span_body body) as [v [|? ?]].
Qed.

Lemma search_from_first_match prev s :
  search_from true version_pattern prev s = matched <$> first_match prev s.
Proof.
  revert prev. induction s as [|c s IH]; intros prev; cbn [search_from
    first_match]; rewrite exec_version.
  - destruct (at_bol true prev); [|done]. by destruct (match_version "").
  - destruct (at_bol true prev); [|apply IH].
    destruct (match_version (String c s)); [done | apply IH].
Qed.

Lemma span_body_spec body v r :
  span_body body = (v, r) →
  body = v +:+ r ∧ Forall (λ c, is_quote c = false) (list_ascii_of_string v).
Proof.
  revert v r. induction body as [|c body IH]; intros v r; cbn [span_body].
  - intros [= <- <-]. by split.
  - destruct (is_quote c) eqn:Hc.
    + intros [= <- <-]. by split.
    + destruct (span_body body) as [v' r'] eqn:Hb. intros [= <- <-].
      destruct (IH v' r' eq_refl) as [-> Hall]. split; [done|].
      cbn [list_ascii_of_string]. by constructor.
Qed.

Lemma span_body_app v q rest :
  Forall (λ c, is_quote c = false) (list_ascii_of_string v) →
  is_quote q = true →
  span_body (v +:+ String q rest) = (v, String q rest).
Proof.
  intros Hall Hq. induction v as [|c v IH].
  - rewrite sapp_nil_l. cbn [span_body]. by rewrite Hq.
  - rewrite sapp_cons. cbn [span_body].
    cbn [list_ascii_of_string] in Hall. apply Forall_cons in Hall as [Hc Hv].
    by rewrite Hc, (IH Hv).
Qed.

Lemma span_body_rest_quote body v q r :
  span_body body = (v, String q r) → is_quote q = true.
Proof.
  revert v. induction body as [|c body IH]; intros v; cbn [span_body].
  - done.
  - destruct (is_quote c) eqn:Hc.
    + by intros [= <- <- <-].
    + destruct (span_body body) as [v' r'] eqn:Hb. intros [= <- ->].
      by eapply IH.
Qed.

Lemma match_version_spec s v : match_version s = Some v ↔ version_at s v.
Proof.
  unfold match_version, version_at. split.
  - destruct (strip_prefix "__version__ = " s) as [[|q body]|] eqn:Hs;
      [done| |done].
    apply strip_prefix_Some in Hs.
    destruct (is_quote q) eqn:Hq; [|done].
    destruct (span_body body) as [v' [|q2 r]] eqn:Hb; [done|].
    intros [= <-]. destruct (span_body_spec _ _ _ Hb) as [-> Hall].
    exists q, q2, r. by rewrite (span_body_rest_quote _ _ _ _ Hb).
  - intros (q1 & q2 & rest & Hq1 & Hq2 & Hall & ->).
    assert (strip_prefix "__version__ = "
              ("__version__ = " +:+ String q1 (v +:+ String q2 rest))
            = Some (String q1 (v +:+ String q2 rest))) as ->
      by by apply strip_prefix_Some.
    by rewrite Hq1, span_body_app.
Qed.

Lemma match_version_nil : match_version "" = None.
Proof. reflexivity. Qed.

Lemma first_match_None prev s :
  first_match prev s = None ↔
  ∀ pre suf, s = pre +:+ suf →
             at_bol true (last_or prev pre) = true →
             match_version suf = None.
Proof.
  revert prev. induction s as [|c s IH]; intros prev; cbn [first_match].
  - rewrite match_version_nil. split.
    + intros _ [|? ?] suf; [|done]. rewrite sapp_nil_l. by intros <-.
    + by destruct (at_bol true prev).
  - split.
    + intros Hn [|d pre] suf Hs Hbol.
      * rewrite sapp_nil_l in Hs. subst suf. cbn [last_or] in Hbol.
        rewrite Hbol in Hn. by destruct (match_version (String c s)).
      * rewrite sapp_cons in Hs. injection Hs as <- ->.
        cbn [last_or] in Hbol.
        assert (first_match (Some c) (pre +:+ suf) = None) as Hrec.
        { destruct (at_bol true prev); [|done].
          by destruct (match_version (String c (pre +:+ suf))). }
        by apply (proj1 (IH _) Hrec pre suf).
    + intros Hall.
      assert ((if at_bol true prev then match_version (String c s)
               else None) = None) as ->.
      { destruct (at_bol true prev) eqn:Hbol; [|done].
        by apply (Hall "" (String c s)). }
      apply IH. intros pre suf -> Hbol.
      by apply (Hall (String c pre) suf).
Qed.

Lemma first_match_Some prev s v :
  first_match prev s = Some v ↔
  ∃ pre suf,
    s = pre +:+ suf
    ∧ at_bol true (last_or prev pre) = true
    ∧ match_version suf = Some v
    ∧ ∀ pre1 rest1, pre = pre1 +:+ rest1 → rest1 ≠ "" →
                    at_bol true (last_or prev pre1) = true →
                    match_version (rest1 +:+ suf) = None.
Proof.
  revert prev. induction s as [|c s IH]; intros prev; cbn [first_match].
  - rewrite match_version_nil. split.
    + by destruct (at_bol true prev).
    + intros ([|? ?] & suf & Hs & _ & Hm & _); [|done].
      rewrite sapp_nil_l in Hs. subst suf.
      by rewrite match_version_nil in Hm.
  - split.
    + destruct (if at_bol true prev then match_version (String c s)
                else None) as [v0|] eqn:Hhead.
      * intros [= ->]. exists "", (String c s).
        destruct (at_bol true prev) eqn:Hbol; [|done].
        repeat split; try done.
        intros [|? ?] rest1; [|done]. rewrite sapp_nil_l. by intros <-.
      * intros Hrec. apply IH in Hrec as (pre & suf & -> & Hbol & Hm & He).
        exists (String c pre), suf. repeat split; try done.
        intros [|d pre1] rest1 Hpre Hne Hb1.
        -- rewrite sapp_nil_l in Hpre. subst rest1. rewrite sapp_cons.
           cbn [last_or] in Hb1. by rewrite Hb1 in Hhead.
        -- rewrite sapp_cons in Hpre. injection Hpre as <- ->.
           by apply (He pre1 rest1).
    + intros ([|d pre] & suf & Hs & Hbol & Hm & He).
      * rewrite sapp_nil_l in Hs. subst suf. cbn [last_or] in Hbol.
        by rewrite Hbol, Hm.
      * rewrite sapp_cons in Hs. injection Hs as <- ->.
        assert ((if at_bol true prev
                 then match_version (String c (pre +:+ suf))
                 else None) = None) as ->.
        { destruct (at_bol true prev) eqn:Hb; [|done].
          by apply (He "" (String c pre)). }
        apply IH. exists pre, suf. repeat split; try done.
        intros pre1 rest1 -> Hne Hb1.
        by apply (He (String c pre1) rest1).
Qed.

Lemma last_or_snoc prev p c : last_or prev (p +:+ String c "") = Some c.
Proof.
  revert prev. induction p as [|d p IH]; intros prev; [done|].
  rewrite sapp_cons. cbn [last_or]. apply IH.
Qed.

Lemma string_snoc_cases s : s = "" ∨ ∃ p c, s = p +:+ String c "".
Proof.
  induction s as [|d s [->|(p & c & ->)]]; [by left| |]; right.
  - by exists "", d.
  - by exists (String d p), c.
Qed.

Lemma at_bol_starts_line pre :
  at_bol true (last_or None pre) = true ↔ starts_line pre.
Proof.
  unfold starts_line.
  destruct (string_snoc_cases pre) as [->|(p & c & ->)].
  - split; [by left | done].
  - rewrite last_or_snoc. cbn [at_bol andb]. split.
    + intros Hc. apply Ascii.eqb_eq in Hc as ->. right. by exists p.
    + intros [Hnil|(p' & Heq)].
      * by destruct p.
      * assert (c = newline) as ->; [|done].
        assert (last_or None (p +:+ String c "")
                = last_or None (p' +:+ String newline "")) as Hl
          by by rewrite Heq.
        rewrite !last_or_snoc in Hl. by injection Hl.
Qed.

Lemma find_version_run w path text :
  disk w !! path = Some text →
  run (find_version w path)
  = ([EvOpen path],
     match first_match None text with
     | Some v => Ok (Some v)
     | None => Raise (RuntimeError "Unable to find version string.")
     end).
Proof.
  intros Hfile. unfold run, find_version, read_file.
  step_monad. rewrite Hfile. simpl.
  unfold search. rewrite search_from_first_match.
  by destruct (first_match None text).
Qed.

Lemma find_version_missing w path :
  disk w !! path = None →
  run (find_version w path) = ([EvOpen path], Raise (read_error w path)).
Proof.
  intros Hfile. unfold run, find_version, read_file.
  step_monad. by rewrite Hfile.
Qed.


End SetupFacts.

Section setup_claims.
Import Setup SetupFacts.

(** The line that assigns the version 1.2.3, in double quotes. *)
Definition version_line_123 : string :=
  "__version__ = " +:+ String dquote ("1.2.3" +:+ String dquote "").

(** Two version lines: the first one wins. *)
Definition two_versions : string :=
  "__version__ = '0.1'" +:+ String newline version_line_123.

(** A quoted text that runs over a line break. *)
Definition broken_version : string :=
  "__version__ = " +:+ String dquote
    ("1.2" +:+ String newline ("3" +:+ String dquote "")).

Definition world_of (fs : files) : world :=
  {| script_file := "setup.py"; disk := fs;
     read_error := FileNotFoundError; find_packages := λ _, [] |}.

(** C7 as stated fails in both directions.  A file with a line that reads
    as the assignment of 1.2.3 yields another version when an earlier
    line matches; and a file none of whose lines matches the pattern on
    its own still yields a version, because the quoted text may run over
    line breaks. *)
Lemma find_version_counterexample :
  version_line_123 ∈ Str.split newline two_versions
  ∧ (run (find_version (world_of {[ "f" := two_versions ]}) "f")).2
    = Ok (Some "0.1")
  ∧ Forall (λ line, Re.search version_pattern line true = None)
      (Str.split newline broken_version)
  ∧ (run (find_version (world_of {[ "f" := broken_version ]}) "f")).2
    = Ok (Some ("1.2" +:+ String newline "3")).
Proof.
  split; [|split; [|split]].
  - vm_compute. apply list_elem_of_further, list_elem_of_here.
  - reflexivity.
  - vm_compute. repeat constructor.
  - reflexivity.
Qed.

(** C7, as the code has it: [find_version] returns the quoted text found
    at the first position that starts a line and reads as the version
    literal, a quote character, a text without quote characters (line
    breaks allowed), and a quote character; on a file that starts with
    the line assigning 1.2.3 this is the string 1.2.3.  It raises the
    [RuntimeError] exactly when no position that starts a line reads
    that way, and in no case returns [None] or another default. *)
Theorem find_version_first_match w path text :
  disk w !! path = Some text →
  let r := (run (find_version w path)).2 in
  (∀ v, r = Ok (Some v) ↔
        ∃ pre suf,
          text = pre +:+ suf ∧ starts_line pre ∧ version_at suf v
          ∧ ∀ pre1 rest1 v1,
              pre = pre1 +:+ rest1 → rest1 ≠ "" → starts_line pre1 →
              ¬ version_at (rest1 +:+ suf) v1)
  ∧ (r = Raise (RuntimeError "Unable to find version string.") ↔
     ∀ pre suf v, text = pre +:+ suf → starts_line pre → ¬ version_at suf v)
  ∧ ((∃ v, r = Ok (Some v))
     ∨ r = Raise (RuntimeError "Unable to find version string."))
  ∧ (∀ rest, text = version_line_123 +:+ rest → r = Ok (Some "1.2.3")).
Proof.
  intros Hfile r. subst r. rewrite (find_version_run _ _ _ Hfile).
  cbn [snd]. split; [|split; [|split]].
  - intros v. split.
    + destruct (first_match None text) as [v0|] eqn:Hfm; [|done].
      intros [= ->].
      apply first_match_Some in Hfm as (pre & suf & -> & Hbol & Hm & He).
      exists pre, suf. repeat split.
      * by apply at_bol_starts_line.
      * by apply match_version_spec.
      * intros pre1 rest1 v1 Hpre Hne Hsl Hv.
        apply at_bol_starts_line in Hsl. apply match_version_spec in Hv.
        by rewrite (He pre1 rest1 Hpre Hne Hsl) in Hv.
    + intros (pre & suf & -> & Hsl & Hv & He).
      assert (first_match None (pre +:+ suf) = Some v) as ->; [|done].
      apply first_match_Some. exists pre, suf. repeat split.
      * by apply at_bol_starts_line.
      * by apply match_version_spec.
      * intros pre1 rest1 Hpre Hne Hbol.
        apply at_bol_starts_line in Hbol.
        destruct (match_version (rest1 +:+ suf)) as [v1|] eqn:Hm; [|done].
        apply match_version_spec in Hm. by destruct (He pre1 rest1 v1).
  - split.
    + destruct (first_match None text) eqn:Hfm; [done|]. intros _.
      intros pre suf v Hs Hsl Hv.
      apply at_bol_starts_line in Hsl. apply match_version_spec in Hv.
      by rewrite (proj1 (first_match_None _ _) Hfm pre suf Hs Hsl) in Hv.
    + intros Hnone.
      assert (first_match None text = None) as ->; [|done].
      apply first_match_None. intros pre suf Hs Hbol.
      apply at_bol_starts_line in Hbol.
      destruct (match_version suf) as [v|] eqn:Hm; [|done].
      apply match_version_spec in Hm. by destruct (Hnone pre suf v).
  - destruct (first_match None text); eauto.
  - intros rest ->.
    assert (first_match None (version_line_123 +:+ rest) = Some "1.2.3")
      as ->; [|done].
    apply first_match_Some. exists "", (version_line_123 +:+ rest).
    split; [done|]. split; [done|]. split.
    + apply match_version_spec. exists dquote, dquote, rest.
      split; [done|]. split; [done|]. split; [by repeat constructor|].
      unfold version_line_123. by rewrite !sapp_assoc.
    + intros [|? ?] rest1; [|done]. rewrite sapp_nil_l. by intros <-.
Qed.

Lemma find_version_first_match_witness :
  (run (find_version (world_of {[ "f" := version_line_123 ]}) "f")).2
  = Ok (Some "1.2.3").
Proof.
  assert (disk (world_of {[ "f" := version_line_123 ]}) !! "f"
          = Some version_line_123) as Hfile by reflexivity.
  destruct (find_version_first_match _ _ _ Hfile) as (_ & _ & _ & Hline).
  apply (Hline ""). by rewrite sapp_nil_r.
Defined.





End setup_claims.

(** * Further properties of [_generate] *)

Section generate_properties.
Import Vllm VllmFacts.

(** The keys of [_default_params]. *)
Definition default_names : gset string :=
  list_to_set ["n"; "best_of"; "max_tokens"; "top_k"; "top_p";
               "temperature"; "presence_penalty"; "frequency_penalty";
               "stop"; "ignore_eos"; "use_beam_search"; "logprobs"].

Lemma dom_default_params self : dom (_default_params self) = default_names.
Proof. unfold _default_params. by rewrite dom_list_to_map_L. Qed.

(** The exception an event records, if its call raised. *)
Definition raised (ev : event) : option exn :=
  match ev with
  | EvImport _ _ (Raise ex) | EvLLM _ (Raise ex)
  | EvSamplingParams _ (Raise ex) | EvGenerate _ _ _ (Raise ex) => Some ex
  | _ => None
  end.

Definition is_generate (ev : event) : bool :=
  match ev with
  | EvGenerate _ _ _ _ => true
  | _ => false
  end.

(** The runs of [_generate], case by case. *)
Inductive generate_cases (e : env) (self : VLLM) (prompts : list string)
    (stop : value) (kwargs : gmap string value)
  : list event * result LLMResult → Prop :=
| run_prebuilt :
    truthy (vllm_sampling_params_obj self) = true →
    generate_cases e self prompts stop kwargs
      (after_params e self prompts (vllm_sampling_params_obj self) [])
| run_import_fails ex :
    truthy (vllm_sampling_params_obj self) = false →
    import_vllm e "SamplingParams" = Raise ex →
    generate_cases e self prompts stop kwargs
      ([EvImport "vllm" "SamplingParams" (Raise ex)], Raise ex)
| run_params_fail ex :
    truthy (vllm_sampling_params_obj self) = false →
    import_vllm e "SamplingParams" = Ok () →
    new_SamplingParams e (merged_params self stop kwargs) = Raise ex →
    generate_cases e self prompts stop kwargs
      ([EvImport "vllm" "SamplingParams" (Ok ());
        EvSamplingParams (merged_params self stop kwargs) (Raise ex)],
       Raise ex)
| run_merged sp :
    truthy (vllm_sampling_params_obj self) = false →
    import_vllm e "SamplingParams" = Ok () →
    new_SamplingParams e (merged_params self stop kwargs) = Ok sp →
    generate_cases e self prompts stop kwargs
      (after_params e self prompts sp
         [EvImport "vllm" "SamplingParams" (Ok ());
          EvSamplingParams (merged_params self stop kwargs) (Ok sp)]).

Lemma generate_run_cases e self prompts stop rm kwargs :
  generate_cases e self prompts stop kwargs
    (run (_generate e self prompts stop rm kwargs)).
Proof.
  unfold run. rewrite generate_run.
  destruct (truthy (vllm_sampling_params_obj self)) eqn:Ht.
  { by constructor. }
  simpl. destruct (import_vllm e "SamplingParams") as [[]|ex] eqn:Hi.
  2: { by constructor. }
  destruct (new_SamplingParams e (merged_params self stop kwargs))
    as [sp|ex] eqn:Hsp; simpl.
  - by apply run_merged.
  - by apply run_params_fail.
Qed.

(** X1: on the merging path, the keyword arguments handed to the
    construction of the sampling parameters hold, under every key but
    [stop], the per-call option when the caller gave one and the
    configured default otherwise; their keys are the caller's keys and
    the twelve default keys, nothing else. *)
Theorem generate_params_precedence e self prompts stop rm kwargs kw r :
  truthy (vllm_sampling_params_obj self) = false →
  EvSamplingParams kw r
    ∈ (run (_generate e self prompts stop rm kwargs)).1 →
  (∀ k, k ≠ "stop" →
        kw !! k = match kwargs !! k with
                  | Some v => Some v
                  | None => _default_params self !! k
                  end)
  ∧ dom kw = dom kwargs ∪ default_names.
Proof.
  intros Hf Hin.
  destruct (generate_merge_trace _ _ _ _ _ _ _ Hf Hin)
    as [?|[[_ Heq]|(_ & sp & _ & ?)]]; try done.
  injection Heq as -> _. unfold merged_params. split.
  - intros k Hk. rewrite lookup_insert_ne by done. rewrite lookup_union.
    by destruct (kwargs !! k), (_default_params self !! k).
  - rewrite dom_insert_L, dom_union_L, dom_default_params.
    unfold default_names.
    apply subseteq_union_1_L, singleton_subseteq_l, elem_of_union_r,
      elem_of_list_to_set.
    repeat first [apply list_elem_of_here | apply list_elem_of_further].
Qed.

Lemma generate_params_precedence_witness :
  ∃ kw r,
    EvSamplingParams kw r
      ∈ (run (_generate echo_engine example_llm ["p"] VNone VNone
                {[ "top_k" := VInt 5 ]})).1
    ∧ kw !! "top_k" = Some (VInt 5)
    ∧ kw !! "n" = Some (VInt 2).
Proof.
  set (kw := merged_params example_llm VNone {[ "top_k" := VInt 5 ]}).
  exists kw, (Ok (VObj 2 true)).
  assert (EvSamplingParams kw (Ok (VObj 2 true))
            ∈ (run (_generate echo_engine example_llm ["p"] VNone VNone
                      {[ "top_k" := VInt 5 ]})).1) as Hin.
  { vm_compute. apply list_elem_of_further, list_elem_of_here. }
  split; [exact Hin|].
  destruct (generate_params_precedence echo_engine example_llm ["p"] VNone
              VNone {[ "top_k" := VInt 5 ]} kw (Ok (VObj 2 true))
              eq_refl Hin) as [Hkeys _].
  split.
  - by rewrite (Hkeys "top_k").
  - by rewrite (Hkeys "n").
Defined.

(** X2: [_generate] calls the client's [generate] at most once, with the
    client of the instance and the prompts it was given, unchanged; there
    is no second attempt. *)
Theorem generate_calls_client_once e self prompts stop rm kwargs :
  let trace := (run (_generate e self prompts stop rm kwargs)).1 in
  (∀ i j ev ev',
     trace !! i = Some ev → trace !! j = Some ev' →
     is_generate ev = true → is_generate ev' = true → i = j)
  ∧ (∀ c ps sp o,
       EvGenerate c ps sp o ∈ trace →
       c = client self ∧ ps = prompts ∧ o = client_generate e c ps sp).
Proof.
  intros trace. subst trace.
  destruct (generate_run_cases e self prompts stop rm kwargs);
    rewrite ?after_params_run; cbn [fst snd app]; split.
  all: try (intros i j ev ev' Hi Hj Hg Hg';
            repeat (destruct i as [|i]; cbn in Hi; simplify_eq; try done);
            repeat (destruct j as [|j]; cbn in Hj; simplify_eq; try done)).
  all: intros c ps sp' o; rewrite !elem_of_cons, elem_of_nil;
    intros Hin; repeat (destruct Hin as [Hin|Hin]; try done);
    by injection Hin as -> -> -> ->.
Qed.

(** X3: an exception raised by the import, by the construction of the
    sampling parameters or by the client's [generate] is the exception
    [_generate] raises, unchanged, and the failed call is the last event
    of the run: nothing is retried and nothing is called after it. *)
Theorem generate_propagates_exceptions e self prompts stop rm kwargs ev ex :
  ev ∈ (run (_generate e self prompts stop rm kwargs)).1 →
  raised ev = Some ex →
  (run (_generate e self prompts stop rm kwargs)).2 = Raise ex
  ∧ last (run (_generate e self prompts stop rm kwargs)).1 = Some ev.
Proof.
  destruct (generate_run_cases e self prompts stop rm kwargs);
    rewrite ?after_params_run; cbn [fst snd app].
  all: rewrite !elem_of_cons, elem_of_nil; intros Hin Hr.
  all: repeat (destruct Hin as [Hin|Hin]; try done); subst ev;
    cbn in Hr; try done.
  all: try (injection Hr as ->; done).
  all: destruct (client_generate e _ _ _); [done|];
    by injection Hr as ->.
Qed.

(** An engine whose [generate] fails. *)
Definition failing_engine : env := {|
  import_vllm := λ _, Ok ();
  new_LLM := λ _, Ok (VObj 1 true);
  new_SamplingParams := λ _, Ok (VObj 2 true);
  client_generate := λ _ _ _, Raise (ExternalError "CUDA out of memory")
|}.

Lemma generate_propagates_exceptions_witness :
  (run (_generate failing_engine example_llm ["p"] VNone VNone ∅)).2
  = Raise (ExternalError "CUDA out of memory").
Proof.
  refine (proj1 (generate_propagates_exceptions failing_engine example_llm
                   ["p"] VNone VNone ∅
                   (EvGenerate (VObj 1 true) ["p"] (VObj 2 true)
                      (Raise (ExternalError "CUDA out of memory")))
                   (ExternalError "CUDA out of memory") _ eq_refl)).
  vm_compute. apply list_elem_of_further, list_elem_of_further,
    list_elem_of_here.
Defined.

(** X4: once [generate] has returned, the result has one group per
    returned output, each group of length one, however many prompts were
    sent; and [_generate] raises [IndexError] exactly when one of the
    outputs has no candidate, in which case no group is returned at
    all. *)
Theorem generate_result_shape e self prompts stop rm kwargs c ps sp outs :
  EvGenerate c ps sp (Ok outs)
    ∈ (run (_generate e self prompts stop rm kwargs)).1 →
  let r := (run (_generate e self prompts stop rm kwargs)).2 in
  (∀ res, r = Ok res →
          length (generations res) = length outs
          ∧ Forall (λ g, length g = 1) (generations res))
  ∧ (r = Raise (IndexError "list index out of range") ↔
     Exists (λ o, Engine.outputs o = []) outs)
  ∧ ((∃ res, r = Ok res)
     ∨ r = Raise (IndexError "list index out of range")).
Proof.
  intros Hin r. subst r.
  destruct (generate_after_generate _ _ _ _ _ _ _ _ _ _ Hin)
    as (_ & _ & ->).
  destruct (mapM group_of outs) as [gs|] eqn:Hgs.
  - pose proof Hgs as Hall. apply mapM_Some in Hall.
    split; [|split; [|eauto]].
    + intros res [= <-]. cbn [generations]. split.
      * symmetry. by eapply Forall2_length.
      * apply Forall_forall. intros g Hg.
        apply list_elem_of_lookup in Hg as [i Hi].
        destruct (Forall2_lookup_r _ _ _ _ _ Hall Hi) as (o & _ & Ho).
        by apply group_of_Some in Ho as (? & ? & _ & ->).
    + split; [done|]. intros Hex. exfalso.
      apply Exists_exists in Hex as (o & Ho & Hnil).
      apply list_elem_of_lookup in Ho as [i Hi].
      destruct (Forall2_lookup_l _ _ _ _ _ Hall Hi) as (g & _ & Hg).
      apply group_of_Some in Hg as (? & ? & Hout & _).
      by rewrite Hnil in Hout.
  - split; [done|]. split; [|eauto]. split; [|done]. intros _.
    assert (¬ Forall (is_Some ∘ group_of) outs) as Hnot.
    { intros Hall. apply mapM_is_Some in Hall as [gs Hgs'].
      by rewrite Hgs in Hgs'. }
    apply not_Forall_Exists in Hnot; [|intros o; apply _].
    eapply Exists_impl; [exact Hnot|]. intros o Ho. cbn in Ho.
    unfold group_of in Ho. destruct (Engine.outputs o); [done|].
    by destruct Ho.
Qed.

(** An engine that returns a single output whatever the prompts are. *)
Definition terse_engine : env := {|
  import_vllm := λ _, Ok ();
  new_LLM := λ _, Ok (VObj 1 true);
  new_SamplingParams := λ _, Ok (VObj 2 true);
  client_generate := λ _ _ _, Ok (echo_outputs ["only"])
|}.

Lemma generate_result_shape_witness :
  ∃ res,
    (run (_generate terse_engine example_llm ["p"; "q"; "r"] VNone VNone
            ∅)).2 = Ok res
    ∧ length (generations res) = 1.
Proof.
  destruct (generate_result_shape terse_engine example_llm ["p"; "q"; "r"]
              VNone VNone ∅ (VObj 1 true) ["p"; "q"; "r"] (VObj 2 true)
              (echo_outputs ["only"])) as (Hshape & _ & _).
  - vm_compute. apply list_elem_of_further, list_elem_of_further,
      list_elem_of_here.
  - eexists. split; [reflexivity|].
    exact (proj1 (Hshape _ eq_refl)).
Defined.

End generate_properties.

(** * Further properties of construction *)

Section validate_properties.
Import Vllm VllmFacts.

Lemma bind_Ok_inv {E A B} (m : M E A) (k : A → M E B) t b :
  ((m ≫= k) t).2 = Ok b →
  ∃ t1 a, m t = (t1, Ok a) ∧ (k a t1).2 = Ok b.
Proof.
  unfold mbind, M_bind, bind. destruct (m t) as [t1 [a|ex]]; [eauto|done].
Qed.

Lemma getitem_Ok d k t t' v :
  getitem d k t = (t', Ok v) → d !! k = Some v ∧ t' = t.
Proof.
  unfold getitem. destruct (d !! k); [|done]. by intros [= -> ->].
Qed.

Lemma import_LLM_Ok e t t' u :
  except_ImportError (import_from e "LLM") (ImportError import_hint) t
  = (t', Ok u) →
  import_vllm e "LLM" = Ok ().
Proof.
  unfold except_ImportError, import_from. step_monad.
  destruct (import_vllm e "LLM") as [[]|ex]; [done|]. by destruct ex.
Qed.

(** X5: a construction that succeeds has imported the engine package,
    and the values it returns are the values it was given with the
    [client] entry set: no other field is added, removed or changed. *)
Theorem validate_environment_sets_only_client e values values' :
  (run (validate_environment e values)).2 = Ok values' →
  import_vllm e "LLM" = Ok ()
  ∧ is_Some (values' !! "client")
  ∧ ∀ k, k ≠ "client" → values' !! k = values !! k.
Proof.
  unfold run, validate_environment. intros H.
  apply bind_Ok_inv in H as (t1 & u & Himport & H).
  apply import_LLM_Ok in Himport. split; [done|].
  apply bind_Ok_inv in H as (t2 & obj & _ & H).
  assert (∃ c, values' = <["client" := c]> values) as [c ->].
  { destruct (negb (truthy obj)).
    - do 8 (apply bind_Ok_inv in H as (? & ? & _ & H)).
      injection H as <-. eauto.
    - apply bind_Ok_inv in H as (? & ? & _ & H).
      injection H as <-. eauto. }
  split.
  - rewrite lookup_insert_eq. eauto.
  - intros k Hk. by rewrite lookup_insert_ne.
Qed.

Lemma validate_environment_sets_only_client_witness :
  ∃ values',
    (run (validate_environment echo_engine (config_with VNone))).2
      = Ok values'
    ∧ values' !! "dtype" = Some (VStr "auto").
Proof.
  eexists. split; [reflexivity|].
  destruct (validate_environment_sets_only_client echo_engine
              (config_with VNone) _ eq_refl) as (_ & _ & Hkeep).
  by rewrite (Hkeep "dtype").
Defined.

(** X6: when the import of the engine package fails, construction stops
    there: the import is the only event, no field is read and no client
    is constructed.  An [ImportError] is replaced by the one carrying the
    installation hint; any other exception is raised as it came. *)
Theorem validate_environment_import_failure e values ex :
  import_vllm e "LLM" = Raise ex →
  run (validate_environment e values)
  = ([EvImport "vllm" "LLM" (Raise ex)],
     Raise match ex with
           | ImportError _ => ImportError import_hint
           | _ => ex
           end).
Proof.
  intros Hi.
  unfold run, validate_environment, except_ImportError, import_from.
  step_monad. rewrite Hi. by destruct ex.
Qed.

(** An environment in which loading the package fails for another
    reason than its absence. *)
Definition broken_vllm : env := {|
  import_vllm := λ _, Raise (ExternalError "libcuda.so not found");
  new_LLM := λ _, Raise (ExternalError "unreachable");
  new_SamplingParams := λ _, Raise (ExternalError "unreachable");
  client_generate := λ _ _ _, Raise (ExternalError "unreachable")
|}.

Lemma validate_environment_import_failure_witness :
  run (validate_environment broken_vllm (config_with VNone))
  = ([EvImport "vllm" "LLM" (Raise (ExternalError "libcuda.so not found"))],
     Raise (ExternalError "libcuda.so not found")).
Proof.
  exact (validate_environment_import_failure broken_vllm (config_with VNone)
           (ExternalError "libcuda.so not found") eq_refl).
Defined.





End validate_properties.

(** * Further properties of [setup.py] *)

Module StrFacts.
Import Str.

(** ["sep".join(l)] *)
Fixpoint join (sep : ascii) (l : list string) : string :=
  match l with
  | [] => ""
  | [s] => s
  | s :: l' => s +:+ String sep (join sep l')
  end.

(** Only whitespace. *)
Fixpoint blank (s : string) : bool :=
  match s with
  | EmptyString => true
  | String c s' => isspace c && blank s'
  end.

Fixpoint contains (c : ascii) (s : string) : bool :=
  match s with
  | EmptyString => false
  | String d s' => Ascii.eqb d c || contains c s'
  end.

Lemma split_not_nil sep s : split sep s ≠ [].
Proof.
  destruct s as [|c s]; cbn [split]; [done|].
  destruct (Ascii.eqb c sep); [done|]. by destruct (split sep s).
Qed.

Lemma join_cons sep s h t :
  join sep (s :: h :: t) = s +:+ String sep (join sep (h :: t)).
Proof. reflexivity. Qed.

Lemma join_split sep s : join sep (split sep s) = s.
Proof.
  induction s as [|c s IH]; cbn [split]; [done|].
  pose proof (split_not_nil sep s) as Hne.
  destruct (Ascii.eqb_spec c sep) as [->|Hc].
  - destruct (split sep s) as [|h t]; [done|].
    by rewrite join_cons, IH, sapp_nil_l.
  - destruct (split sep s) as [|h t]; [done|].
    destruct t as [|h' t].
    + cbn [join] in *. by rewrite IH.
    + rewrite join_cons in *. by rewrite sapp_cons, IH.
Qed.

Lemma split_no_sep sep s :
  Forall (λ piece, contains sep piece = false) (split sep s).
Proof.
  induction s as [|c s IH]; cbn [split].
  - by repeat constructor.
  - destruct (Ascii.eqb c sep) eqn:Hc.
    + by constructor.
    + destruct (split sep s) as [|h t].
      * constructor; [|constructor]. cbn [contains]. by rewrite Hc.
      * apply Forall_cons in IH as [Hh Ht]. constructor; [|done].
        cbn [contains]. by rewrite Hc, Hh.
Qed.

Lemma split_app_sep sep p s :
  split sep (p +:+ String sep s) = split sep p ++ split sep s.
Proof.
  induction p as [|d p IH].
  - rewrite sapp_nil_l. cbn [split]. by rewrite Ascii.eqb_refl.
  - rewrite sapp_cons. cbn [split]. rewrite IH.
    destruct (Ascii.eqb d sep); [done|].
    pose proof (split_not_nil sep p). by destruct (split sep p).
Qed.

Lemma split_head sep c s :
  Ascii.eqb c sep = false →
  ∃ h t, split sep (String c s) = String c h :: t.
Proof.
  intros Hc. cbn [split]. rewrite Hc.
  destruct (split sep s); eauto.
Qed.

Lemma lstrip_spec s : ∃ l, s = l +:+ lstrip s ∧ blank l = true.
Proof.
  induction s as [|c s (l & Hs & Hl)]; [by exists ""|].
  cbn [lstrip]. destruct (isspace c) eqn:Hc.
  - exists (String c l). rewrite sapp_cons, <- Hs. split; [done|].
    cbn [blank]. by rewrite Hc.
  - by exists "".
Qed.

Lemma rstrip_spec s : ∃ r, s = rstrip s +:+ r ∧ blank r = true.
Proof.
  induction s as [|c s (r & Hs & Hr)]; [by exists ""|].
  cbn [rstrip]. destruct (rstrip s) as [|d s'] eqn:Hrs.
  - rewrite sapp_nil_l in Hs. subst s.
    destruct (isspace c) eqn:Hc.
    + exists (String c r). split; [done|]. cbn [blank]. by rewrite Hc.
    + by exists r.
  - exists r. split; [|done]. by rewrite sapp_cons, <- Hs.
Qed.

Lemma strip_spec s :
  ∃ l r, s = l +:+ strip s +:+ r ∧ blank l = true ∧ blank r = true.
Proof.
  unfold strip. destruct (lstrip_spec s) as (l & Hl & Hbl).
  destruct (rstrip_spec (lstrip s)) as (r & Hr & Hbr).
  exists l, r. split; [|done]. by rewrite <- Hr.
Qed.

Lemma lstrip_blank s : blank s = true → lstrip s = "".
Proof.
  induction s as [|c s IH]; [done|]. cbn [blank lstrip].
  destruct (isspace c); [apply IH | done].
Qed.

Lemma strip_blank s : blank s = true → strip s = "".
Proof. intros Hs. unfold strip. by rewrite lstrip_blank. Qed.

Lemma lstrip_head s c s' : lstrip s = String c s' → isspace c = false.
Proof.
  induction s as [|d s IH]; [done|]. cbn [lstrip].
  destruct (isspace d) eqn:Hd; [done|]. by intros [= <- _].
Qed.

Lemma rstrip_head c s :
  isspace c = false → ∃ s', rstrip (String c s) = String c s'.
Proof.
  intros Hc. cbn [rstrip]. rewrite Hc. destruct (rstrip s); eauto.
Qed.

Lemma rstrip_last s p c :
  rstrip s = p +:+ String c "" → isspace c = false.
Proof.
  revert p. induction s as [|d s IH]; intros p; cbn [rstrip].
  - by destruct p.
  - destruct (rstrip s) as [|e r] eqn:Hr.
    + destruct (isspace d) eqn:Hd; [by destruct p|].
      destruct p as [|d' p]; [by intros [= ->]|].
      rewrite sapp_cons. intros [= _ Hp]. by destruct p.
    + destruct p as [|d' p]; [done|].
      rewrite sapp_cons. intros [= _ Hp]. by eapply IH.
Qed.

Lemma strip_first s c s' : strip s = String c s' → isspace c = false.
Proof.
  unfold strip. destruct (lstrip s) as [|d t] eqn:Hl; [done|].
  pose proof (lstrip_head _ _ _ Hl) as Hd.
  destruct (rstrip_head d t Hd) as [t' ->]. by intros [= <- _].
Qed.

Lemma strip_last s p c : strip s = p +:+ String c "" → isspace c = false.
Proof. apply rstrip_last. Qed.

End StrFacts.

Section requirements_properties.
Import Setup SetupFacts StrFacts.

Lemma get_requirements_run w :
  run (get_requirements w)
  = ([EvOpen (get_path w ["requirements.txt"])],
     match disk w !! get_path w ["requirements.txt"] with
     | Some text => Ok (Str.split newline (Str.strip text))
     | None => Raise (read_error w (get_path w ["requirements.txt"]))
     end).
Proof.
  unfold run, get_requirements, read_file. step_monad.
  by destruct (disk w !! get_path w ["requirements.txt"]).
Qed.

(** X8: [get_requirements] loses nothing of the requirements file but
    the whitespace around its text.  The list it returns is never empty,
    no entry holds a line break, and the entries joined by line breaks are
    the text of the file without its leading and trailing whitespace:
    blank lines, comments and the whitespace inside the text all stay. *)
Theorem get_requirements_lossless w text :
  disk w !! get_path w ["requirements.txt"] = Some text →
  ∃ reqs l r,
    (run (get_requirements w)).2 = Ok reqs
    ∧ reqs ≠ []
    ∧ Forall (λ req, contains newline req = false) reqs
    ∧ text = l +:+ join newline reqs +:+ r
    ∧ blank l = true ∧ blank r = true
    ∧ (∀ c s, join newline reqs = String c s → Str.isspace c = false)
    ∧ (∀ p c, join newline reqs = p +:+ String c "" →
              Str.isspace c = false).
Proof.
  intros Hfile. destruct (strip_spec text) as (l & r & Htext & Hl & Hr).
  exists (Str.split newline (Str.strip text)), l, r.
  rewrite get_requirements_run, Hfile, join_split. cbn [snd].
  split; [done|]. split; [apply split_not_nil|].
  split; [apply split_no_sep|]. split; [done|]. split; [done|].
  split; [done|]. split; [apply strip_first | apply strip_last].
Qed.

(** A checkout whose requirements have a blank line and a comment. *)
Definition commented_requirements : string :=
  String newline
    ("vllm" +:+ String newline
       (String newline ("# extras" +:+ String newline ("ray " +:+
          String newline "")))).

Definition commented_checkout : world :=
  world_of {[ "requirements.txt" := commented_requirements ]}.

Lemma get_requirements_lossless_witness :
  ∃ reqs l r,
    (run (get_requirements commented_checkout)).2 = Ok reqs
    ∧ reqs = ["vllm"; ""; "# extras"; "ray"]
    ∧ commented_requirements = l +:+ join newline reqs +:+ r.
Proof.
  assert (disk commented_checkout
            !! get_path commented_checkout ["requirements.txt"]
          = Some commented_requirements) as Hfile by reflexivity.
  destruct (get_requirements_lossless commented_checkout _ Hfile)
    as (reqs & l & r & Hrun & _ & _ & Htext & _).
  exists reqs, l, r. split; [exact Hrun|]. split; [|exact Htext].
  rewrite get_requirements_run, Hfile in Hrun. by injection Hrun as <-.
Defined.

(** X9: a requirements file that is empty or holds only whitespace makes
    [get_requirements] return the list with one empty entry, not the
    empty list. *)
Theorem get_requirements_blank w text :
  disk w !! get_path w ["requirements.txt"] = Some text →
  blank text = true →
  (run (get_requirements w)).2 = Ok [""].
Proof.
  intros Hfile Hblank.
  by rewrite get_requirements_run, Hfile, (strip_blank _ Hblank).
Qed.

Lemma get_requirements_blank_witness :
  (run (get_requirements
          (world_of {[ "requirements.txt" := " " +:+ String newline "" ]}))).2
  = Ok [""].
Proof.
  assert (disk (world_of {[ "requirements.txt" := " " +:+ String newline "" ]})
            !! get_path
                 (world_of {[ "requirements.txt"
                              := " " +:+ String newline "" ]})
                 ["requirements.txt"]
          = Some (" " +:+ String newline "")) as Hfile by reflexivity.
  exact (get_requirements_blank _ _ Hfile eq_refl).
Defined.


End requirements_properties.

Module PathFacts.
Import Path.







End PathFacts.

Section path_properties.
Import Setup SetupFacts StrFacts PathFacts.



Lemma match_version_head c s :
  Ascii.eqb c "_" = false → match_version (String c s) = None.
Proof.
  intros Hc. unfold match_version. cbn [ReFacts.strip_prefix].
  by rewrite Hc.
Qed.

(** A position that starts a line starts one of the lines that [split]
    returns. *)
Lemma line_start_in_split pre c s :
  starts_line pre → Ascii.eqb c newline = false →
  ∃ line, line ∈ Str.split newline (pre +:+ String c s)
          ∧ Str.startswith c line = true.
Proof.
  intros Hpre Hc. destruct (split_head newline c s Hc) as (h & t & Hs).
  destruct Hpre as [->|[p ->]].
  - rewrite sapp_nil_l, Hs. exists (String c h).
    split; [apply list_elem_of_here|]. cbn. apply Ascii.eqb_refl.
  - rewrite sapp_snoc, split_app_sep, Hs. exists (String c h). split.
    + apply elem_of_app. right. apply list_elem_of_here.
    + cbn. apply Ascii.eqb_refl.
Qed.

(** X12: a version written on a line of its own is read back.  When the
    text before that line is empty or ends a line, and none of its lines
    begins with an underscore, [find_version] returns the quoted text,
    for either kind of opening and closing quote character (they need not
    be the same) and whatever follows the closing one. *)
Theorem find_version_reads_back w path header q1 v q2 rest :
  disk w !! path
  = Some (header +:+ "__version__ = " +:+ String q1 (v +:+ String q2 rest)) →
  starts_line header →
  Forall (λ line, Str.startswith "_" line = false)
    (Str.split newline header) →
  is_quote q1 = true → is_quote q2 = true →
  Forall (λ c, is_quote c = false) (list_ascii_of_string v) →
  (run (find_version w path)).2 = Ok (Some v).
Proof.
  intros Hfile Hsl Hlines Hq1 Hq2 Hv.
  rewrite (find_version_run _ _ _ Hfile). cbn [snd].
  match goal with |- context [first_match None ?t] =>
    assert (first_match None t = Some v) as ->; [|done] end.
  apply first_match_Some.
  exists header, ("__version__ = " +:+ String q1 (v +:+ String q2 rest)).
  split; [done|]. split; [by apply at_bol_starts_line|]. split.
  { apply match_version_spec. by exists q1, q2, rest. }
  intros pre1 rest1 Hheader Hne Hbol. apply at_bol_starts_line in Hbol.
  destruct rest1 as [|c r1]; [done|]. rewrite sapp_cons.
  destruct (Ascii.eqb c "_") eqn:Hc; [|by apply match_version_head].
  exfalso. apply Ascii.eqb_eq in Hc as ->.
  destruct (line_start_in_split pre1 "_" r1 Hbol eq_refl)
    as (line & Hin & Hstart).
  rewrite <- Hheader in Hin.
  rewrite Forall_forall in Hlines. by rewrite (Hlines line Hin) in Hstart.
Qed.

(** A package file with a docstring and an import before the version,
    which is written with an opening double and a closing single quote. *)
Definition package_init : string :=
  "# the package" +:+ String newline ("import os" +:+ String newline
    ("__version__ = " +:+ String dquote ("0.0.305'  # bumped" +:+
       String newline "__all__ = []"))).

Lemma find_version_reads_back_witness :
  (run (find_version (world_of {[ "__init__.py" := package_init ]})
          "__init__.py")).2
  = Ok (Some "0.0.305").
Proof.
  apply (find_version_reads_back
           (world_of {[ "__init__.py" := package_init ]}) "__init__.py"
           ("# the package" +:+ String newline
              ("import os" +:+ String newline ""))
           dquote "0.0.305" squote
           ("  # bumped" +:+ String newline "__all__ = []")).
  - reflexivity.
  - right. by exists ("# the package" +:+ String newline "import os").
  - vm_compute. by repeat constructor.
  - reflexivity.
  - reflexivity.
  - by repeat constructor.
Defined.

(** X13: what [find_version] returns is never [None] and holds no quote
    character of either kind; it stands in the file right after the
    version literal and a quote character, and is followed by one. *)
Theorem find_version_result_unquoted w path r :
  (run (find_version w path)).2 = Ok r →
  ∃ v text pre q1 q2 rest,
    r = Some v
    ∧ disk w !! path = Some text
    ∧ Forall (λ c, is_quote c = false) (list_ascii_of_string v)
    ∧ is_quote q1 = true ∧ is_quote q2 = true
    ∧ text = pre +:+ "__version__ = " +:+ String q1 (v +:+ String q2 rest).
Proof.
  destruct (disk w !! path) as [text|] eqn:Hfile.
  2: { by rewrite (find_version_missing _ _ Hfile). }
  rewrite (find_version_run _ _ _ Hfile). cbn [snd].
  destruct (first_match None text) as [v|] eqn:Hfm; [|done].
  intros [= <-].
  apply first_match_Some in Hfm as (pre & suf & -> & _ & Hm & _).
  apply match_version_spec in Hm as (q1 & q2 & rest & ? & ? & ? & ->).
  by exists v, (pre +:+ "__version__ = " +:+ String q1 (v +:+ String q2 rest)),
    pre, q1, q2, rest.
Qed.

Lemma find_version_result_unquoted_witness :
  ∃ v,
    (run (find_version (world_of {[ "__init__.py" := package_init ]})
            "__init__.py")).2 = Ok (Some v)
    ∧ Forall (λ c, is_quote c = false) (list_ascii_of_string v).
Proof.
  assert ((run (find_version (world_of {[ "__init__.py" := package_init ]})
                  "__init__.py")).2 = Ok (Some "0.0.305")) as Hrun
    by (vm_compute; reflexivity).
  destruct (find_version_result_unquoted _ _ _ Hrun)
    as (v & _ & _ & _ & _ & _ & Hv & _ & Hunq & _).
  exists v. split; [|exact Hunq]. by rewrite Hrun, Hv.
Defined.

(** X14: [find_version] opens the file it is given and no other, once.
    When that file cannot be read it raises the exception of the failed
    read, unchanged; when it can be read, the outcome is a version or the
    [RuntimeError] for a file without one, nothing else. *)
Theorem find_version_outcomes w path :
  let r := run (find_version w path) in
  r.1 = [EvOpen path]
  ∧ (disk w !! path = None → r.2 = Raise (read_error w path))
  ∧ (is_Some (disk w !! path) →
     (∃ v, r.2 = Ok (Some v))
     ∨ r.2 = Raise (RuntimeError "Unable to find version string.")).
Proof.
  intros r. subst r. destruct (disk w !! path) as [text|] eqn:Hfile.
  - rewrite (find_version_run _ _ _ Hfile). cbn [fst snd].
    split; [done|]. split; [done|]. intros _.
    destruct (first_match None text); eauto.
  - rewrite (find_version_missing _ _ Hfile). cbn [fst snd].
    split; [done|]. split; [done|]. by intros [? ?].
Qed.

End path_properties.

(** * The arguments of the client constructor *)

Section constructor_properties.
Import Vllm VllmFacts.

Lemma bind_event_inv {A B} (m : M event A) (k : A → M event B) t ev :
  ev ∈ ((m ≫= k) t).1 →
  ev ∈ (m t).1 ∨ ∃ t1 a, m t = (t1, Ok a) ∧ ev ∈ (k a t1).1.
Proof.
  unfold mbind, M_bind, bind. destruct (m t) as [t1 [a|ex]]; eauto.
Qed.

Lemma getitem_trace d k t : (getitem d k t).1 = t.
Proof. unfold getitem. by destruct (d !! k). Qed.

Lemma keywords_trace named extra t : (keywords named extra t).1 = t.
Proof.
  unfold keywords. destruct extra; try done. by destruct (List.find _ _).
Qed.

Lemma keywords_Ok named extra t t' kw :
  keywords named extra t = (t', Ok kw) →
  ∃ d, extra = VDict d
       ∧ kw = d ∪ list_to_map named
       ∧ Forall (λ k, d !! k = None) named.*1.
Proof.
  unfold keywords. destruct extra as [| | | | | |d|]; try done.
  destruct (List.find _ named) eqn:Hfind; [done|].
  intros [= <- <-]. exists d. split; [done|]. split; [done|].
  apply Forall_forall. intros k Hk.
  apply list_elem_of_fmap in Hk as (kv & -> & Hkv).
  apply list_elem_of_In in Hkv.
  pose proof (find_none _ _ Hfind kv Hkv) as Hb. cbn in Hb.
  apply bool_decide_eq_false in Hb.
  destruct (d !! kv.1) eqn:Hd; [|done]. destruct Hb. eauto.
Qed.

Lemma import_LLM_trace e t t' u :
  except_ImportError (import_from e "LLM") (ImportError import_hint) t
  = (t', Ok u) →
  t' = t ++ [EvImport "vllm" "LLM" (Ok ())].
Proof.
  unfold except_ImportError, import_from. step_monad.
  destruct (import_vllm e "LLM") as [[]|ex]; [by intros [= <-]|].
  by destruct ex.
Qed.

Lemma import_LLM_events e t ev :
  ev ∈ (except_ImportError (import_from e "LLM")
          (ImportError import_hint) t).1 →
  ev ∈ t ∨ ∃ o, ev = EvImport "vllm" "LLM" o.
Proof.
  unfold except_ImportError, import_from. step_monad.
  destruct (import_vllm e "LLM") as [[]|[]]; cbn [fst];
    rewrite elem_of_app, elem_of_cons, elem_of_nil;
    intros [?|[->|[]]]; eauto.
Qed.

(** Read one field on the way to the constructor call. *)
Ltac read_field Hin H x :=
  apply bind_event_inv in Hin as [Hin|(? & x & H & Hin)];
  [by rewrite getitem_trace in Hin|];
  apply getitem_Ok in H as [H ->].

(** X15: whenever the validator calls the client constructor, no usable
    pre-built client was given, and the keyword arguments of the call are
    the five fields [model], [tensor_parallel_size],
    [trust_remote_code], [dtype] and [download_dir] with their values,
    together with every entry of [vllm_kwargs]: nothing else, so none of
    the sampling fields reaches the constructor unless [vllm_kwargs]
    carries it. *)
Theorem validate_environment_constructor_arguments e values kw r :
  EvLLM kw r ∈ (run (validate_environment e values)).1 →
  ∃ obj d,
    values !! "vllm_obj" = Some obj ∧ truthy obj = false
    ∧ values !! "vllm_kwargs" = Some (VDict d)
    ∧ d ⊆ kw
    ∧ Forall (λ k, kw !! k = values !! k ∧ is_Some (values !! k)) LLM_names
    ∧ dom kw = dom d ∪ list_to_set LLM_names
    ∧ r = new_LLM e kw.
Proof.
  unfold run, validate_environment. intros Hin.
  apply bind_event_inv in Hin as [Hin|(t1 & u & Himport & Hin)].
  { apply import_LLM_events in Hin as [Hin|[o Hin]]; [|done].
    by apply elem_of_nil in Hin. }
  apply import_LLM_trace in Himport. cbn [app] in Himport.
  assert (EvLLM kw r ∉ t1) as Hnot.
  { subst t1. rewrite elem_of_cons, elem_of_nil. by intros [|[]]. }
  clear Himport.
  read_field Hin Hobj obj.
  destruct (truthy obj) eqn:Hf; cbn [negb] in Hin.
  { apply bind_event_inv in Hin as [Hin|(? & ? & H & Hin)];
      [by rewrite getitem_trace in Hin|].
    by apply getitem_Ok in H as [_ ->]. }
  read_field Hin Hm m. read_field Hin Htps tps. read_field Hin Htrc trc.
  read_field Hin Hdt dt. read_field Hin Hdd dd. read_field Hin Hkw extra.
  apply bind_event_inv in Hin as [Hin|(t2 & kw' & Hkws & Hin)];
    [by rewrite keywords_trace in Hin|].
  pose proof (keywords_trace
                [("model", m); ("tensor_parallel_size", tps);
                 ("trust_remote_code", trc); ("dtype", dt);
                 ("download_dir", dd)] extra t1) as Htr.
  rewrite Hkws in Htr. cbn [fst] in Htr. subst t2.
  apply keywords_Ok in Hkws as (d & -> & -> & Hfree).
  assert (kw = d ∪ list_to_map [("model", m); ("tensor_parallel_size", tps);
                                ("trust_remote_code", trc); ("dtype", dt);
                                ("download_dir", dd)]
          ∧ r = new_LLM e kw) as [-> ->].
  { revert Hin. unfold call_LLM. step_monad.
    destruct (new_LLM e _) eqn:Hnew; cbn [fst];
      rewrite elem_of_app, elem_of_cons, elem_of_nil;
      intros [?|[[= -> ->]|[]]]; done. }
  exists obj, d. split; [done|]. split; [done|]. split; [done|].
  split; [apply map_union_subseteq_l|]. split; [|split; [|done]].
  - cbn [fmap list_fmap fst] in Hfree.
    repeat match goal with
           | H : Forall _ (_ :: _) |- _ => apply Forall_cons in H as [? H]
           end.
    unfold LLM_names.
    repeat (constructor;
            [split; [by rewrite lookup_union_r | by eauto]|]).
    constructor.
  - by rewrite dom_union_L, dom_list_to_map_L.
Qed.

Lemma validate_environment_constructor_arguments_witness :
  ∃ kw,
    EvLLM kw (Ok (VObj 1 true))
      ∈ (run (validate_environment echo_engine (config_with VNone))).1
    ∧ kw !! "dtype" = Some (VStr "auto").
Proof.
  eexists. split.
  - vm_compute. apply list_elem_of_further, list_elem_of_here.
  - match goal with |- ?kw !! _ = _ =>
      assert (EvLLM kw (Ok (VObj 1 true))
                ∈ (run (validate_environment echo_engine
                          (config_with VNone))).1) as Hin
        by (vm_compute; apply list_elem_of_further, list_elem_of_here)
    end.
    destruct (validate_environment_constructor_arguments _ _ _ _ Hin)
      as (_ & _ & _ & _ & _ & _ & Hnames & _).
    unfold LLM_names in Hnames.
    do 3 apply Forall_cons in Hnames as [_ Hnames].
    apply Forall_cons in Hnames as [[-> _] _]. reflexivity.
Defined.

End constructor_properties.

(** * The truth tests of the two presence checks *)

Section presence_claims.
Import Vllm VllmFacts.

Lemma bind_Ok_trace_inv {E A B} (m : M E A) (k : A → M E B) t t' b :
  (m ≫= k) t = (t', Ok b) →
  ∃ t1 a, m t = (t1, Ok a) ∧ k a t1 = (t', Ok b).
Proof.
  unfold mbind, M_bind, bind. destruct (m t) as [t1 [a|ex]]; [eauto|done].
Qed.

(** Read one field on the way to a returned result. *)
Ltac read_ok Hrun H x :=
  apply bind_Ok_trace_inv in Hrun as (? & x & H & Hrun);
  apply getitem_Ok in H as [H ->].

(** A construction that returns on the construction branch has called
    the client constructor, and the client is what that call returned. *)
Lemma validate_construct_returns e values obj tr values' :
  values !! "vllm_obj" = Some obj →
  truthy obj = false →
  run (validate_environment e values) = (tr, Ok values') →
  ∃ kw c,
    EvLLM kw (Ok c) ∈ tr
    ∧ new_LLM e kw = Ok c
    ∧ values' = <["client" := c]> values.
Proof.
  intros Hobj Hf Hrun. unfold run, validate_environment in Hrun.
  apply bind_Ok_trace_inv in Hrun as (t1 & u & Himport & Hrun).
  apply import_LLM_trace in Himport. cbn [app] in Himport. subst t1.
  read_ok Hrun Hobj' obj'. rewrite Hobj in Hobj'. injection Hobj' as <-.
  rewrite Hf in Hrun. cbn [negb] in Hrun.
  read_ok Hrun Hm m. read_ok Hrun Htps tps. read_ok Hrun Htrc trc.
  read_ok Hrun Hdt dt. read_ok Hrun Hdd dd. read_ok Hrun Hkw extra.
  apply bind_Ok_trace_inv in Hrun as (t2 & kw & Hkws & Hrun).
  pose proof (keywords_trace
                [("model", m); ("tensor_parallel_size", tps);
                 ("trust_remote_code", trc); ("dtype", dt);
                 ("download_dir", dd)] extra
                [EvImport "vllm" "LLM" (Ok ())]) as Htr.
  rewrite Hkws in Htr. cbn [fst] in Htr. subst t2.
  apply bind_Ok_trace_inv in Hrun as (t3 & c & Hcall & Hrun).
  injection Hrun as <- <-. exists kw, c.
  revert Hcall. unfold call_LLM. step_monad.
  destruct (new_LLM e kw) as [c'|ex] eqn:Hnew; [|done].
  intros [= <- <-]. split; [|done].
  apply list_elem_of_further, list_elem_of_here.
Qed.

(** C10 as stated fails: a pre-built client that is not [None] but fails
    the truth test is not reused, yet no client is constructed either
    when the engine package is missing or when [vllm_kwargs] repeats a
    keyword; construction raises instead. *)
Lemma presence_checks_counterexample :
  let obj := VInt 0 in
  let repeated :=
    <["vllm_kwargs" := VDict {[ "dtype" := VStr "float16" ]}]>
      (config_with obj) in
  obj ≠ VNone ∧ truthy obj = false
  ∧ config_with obj !! "vllm_obj" = Some obj
  ∧ repeated !! "vllm_obj" = Some obj
  ∧ run (validate_environment no_vllm (config_with obj))
    = ([EvImport "vllm" "LLM"
          (Raise (ImportError "No module named 'vllm'"))],
       Raise (ImportError import_hint))
  ∧ (¬ ∃ kw o,
         EvLLM kw o
           ∈ (run (validate_environment no_vllm (config_with obj))).1)
  ∧ (∃ msg, run (validate_environment echo_engine repeated)
            = ([EvImport "vllm" "LLM" (Ok ())], Raise (TypeError msg)))
  ∧ (¬ ∃ kw o,
         EvLLM kw o ∈ (run (validate_environment echo_engine repeated)).1).
Proof.
  intros obj repeated.
  split; [done|]. split; [done|]. split; [done|]. split; [done|].
  split; [done|]. split.
  { intros (kw & o & Hin). vm_compute in Hin.
    apply elem_of_cons in Hin as [|Hin]; [done|].
    by apply elem_of_nil in Hin. }
  split; [by eexists|].
  intros (kw & o & Hin). vm_compute in Hin.
  apply elem_of_cons in Hin as [|Hin]; [done|].
  by apply elem_of_nil in Hin.
Qed.

(** C10, as the code has it: both presence checks are truth tests.
    A [vllm_obj] that is not [None] but fails the truth test sends the
    validator down the construction branch: whenever the validator
    returns, the client is what a call of the client constructor
    returned, never the object by reuse; and once the import has
    succeeded, the six fields are there and [vllm_kwargs] repeats none
    of the five keys passed by name, the constructor is called with those
    fields and [vllm_kwargs].  A [vllm_sampling_params_obj] that is not
    [None] but fails the truth test sends [_generate] down the merging
    branch: every construction of sampling parameters receives the
    merged fields (the twelve defaults read from the instance, replaced
    by the per-call options where given, with [stop] set last), the
    client's [generate] receives only what such a construction returned,
    and the construction takes place as soon as the import succeeds. *)
Theorem presence_checks_test_truthiness :
  (∀ e values obj,
     values !! "vllm_obj" = Some obj →
     obj ≠ VNone →
     truthy obj = false →
     (∀ values',
        (run (validate_environment e values)).2 = Ok values' →
        ∃ kw c,
          EvLLM kw (Ok c) ∈ (run (validate_environment e values)).1
          ∧ new_LLM e kw = Ok c
          ∧ values' = <["client" := c]> values)
     ∧ (∀ m tps trc dt dd d,
          import_vllm e "LLM" = Ok () →
          values !! "model" = Some m →
          values !! "tensor_parallel_size" = Some tps →
          values !! "trust_remote_code" = Some trc →
          values !! "dtype" = Some dt →
          values !! "download_dir" = Some dd →
          values !! "vllm_kwargs" = Some (VDict d) →
          Forall (λ k, d !! k = None) LLM_names →
          let kwargs := d ∪ list_to_map (LLM_named m tps trc dt dd) in
          let r := new_LLM e kwargs in
          run (validate_environment e values)
          = ([EvImport "vllm" "LLM" (Ok ()); EvLLM kwargs r],
             match r with
             | Ok c => Ok (<["client" := c]> values)
             | Raise ex => Raise ex
             end)))
  ∧ (∀ e self prompts stop rm kwargs,
       vllm_sampling_params_obj self ≠ VNone →
       truthy (vllm_sampling_params_obj self) = false →
       let trace := (run (_generate e self prompts stop rm kwargs)).1 in
       (∀ kw o,
          EvSamplingParams kw o ∈ trace →
          o = new_SamplingParams e kw
          ∧ kw !! "stop" = Some stop
          ∧ (∀ k, k ≠ "stop" →
                  kw !! k = match kwargs !! k with
                            | Some v => Some v
                            | None => _default_params self !! k
                            end)
          ∧ Forall (λ kv, _default_params self !! kv.1 = Some kv.2)
              [("n", VInt (n self));
               ("best_of", of_option VInt (best_of self));
               ("max_tokens", VInt (max_new_tokens self));
               ("top_k", VInt (top_k self));
               ("top_p", VFloat (top_p self));
               ("temperature", VFloat (temperature self));
               ("presence_penalty", VFloat (presence_penalty self));
               ("frequency_penalty", VFloat (frequency_penalty self));
               ("stop", of_option VStrs (Vllm.stop self));
               ("ignore_eos", VBool (ignore_eos self));
               ("use_beam_search", VBool (use_beam_search self));
               ("logprobs", of_option VInt (logprobs self))])
       ∧ (∀ c ps sp o,
            EvGenerate c ps sp o ∈ trace →
            ∃ kw, EvSamplingParams kw (Ok sp) ∈ trace
                  ∧ new_SamplingParams e kw = Ok sp)
       ∧ (import_vllm e "SamplingParams" = Ok () →
          ∃ kw o, EvSamplingParams kw o ∈ trace)).
Proof.
  split.
  - intros e values obj Hobj _ Hf. split.
    + intros values' Hres.
      destruct (run (validate_environment e values)) as [tr res] eqn:Hrun.
      cbn [fst snd] in *. subst res.
      by eapply validate_construct_returns.
    + intros. by eapply validate_construct_run.
  - intros e self prompts stop rm kwargs _ Hf trace. split; [|split].
    + intros kw o Hin.
      destruct (generate_merge_trace _ _ _ _ _ _ _ Hf Hin)
        as [?|[[_ Heq]|(_ & sp & _ & ?)]]; try done.
      injection Heq as -> ->. split; [done|].
      split; [apply merged_params_stop|]. split.
      * intros k Hk. unfold merged_params.
        rewrite lookup_insert_ne by done. rewrite lookup_union.
        by destruct (kwargs !! k), (_default_params self !! k).
      * repeat (constructor; [reflexivity|]). constructor.
    + intros c ps sp o Hin.
      destruct (generate_merge_trace _ _ _ _ _ _ _ Hf Hin)
        as [?|[[_ ?]|(Hi & sp' & Hsp & Heq)]]; try done.
      injection Heq as _ _ -> _.
      exists (merged_params self stop kwargs). split; [|done].
      subst trace. unfold run. rewrite generate_run, Hf, Hi. simpl.
      rewrite Hsp, after_params_run. simpl.
      apply list_elem_of_further, list_elem_of_here.
    + intros Hi. exists (merged_params self stop kwargs).
      exists (new_SamplingParams e (merged_params self stop kwargs)).
      subst trace. unfold run. rewrite generate_run, Hf, Hi. simpl.
      destruct (new_SamplingParams e _); [rewrite after_params_run|];
        simpl.
      all: apply list_elem_of_further, list_elem_of_here.
Qed.

Lemma presence_checks_test_truthiness_witness :
  (∃ kw c,
     EvLLM kw (Ok c)
       ∈ (run (validate_environment echo_engine (config_with (VInt 0)))).1
     ∧ (run (validate_environment echo_engine (config_with (VInt 0)))).2
       = Ok (<["client" := c]> (config_with (VInt 0))))
  ∧ (∃ kw sp,
       EvGenerate (VObj 1 true) ["p"] sp (Ok (echo_outputs ["p"]))
         ∈ (run (_generate echo_engine falsy_params_llm ["p"]
                   (VStrs ["."]) VNone {[ "top_k" := VInt 5 ]})).1
       ∧ EvSamplingParams kw (Ok sp)
           ∈ (run (_generate echo_engine falsy_params_llm ["p"]
                     (VStrs ["."]) VNone {[ "top_k" := VInt 5 ]})).1
       ∧ kw !! "stop" = Some (VStrs ["."])
       ∧ kw !! "top_k" = Some (VInt 5)
       ∧ kw !! "n" = Some (VInt 1)).
Proof.
  destruct presence_checks_test_truthiness as [HA HB]. split.
  - destruct (HA echo_engine (config_with (VInt 0)) (VInt 0))
      as [Hret _]; [reflexivity | discriminate | reflexivity |].
    destruct (Hret _ eq_refl) as (kw & c & Hin & _ & Heq).
    exists kw, c. split; [exact Hin|]. by rewrite <- Heq.
  - destruct (HB echo_engine falsy_params_llm ["p"] (VStrs ["."]) VNone
                {[ "top_k" := VInt 5 ]})
      as (Hparams & Hgen & _); [discriminate | reflexivity |].
    assert (EvGenerate (VObj 1 true) ["p"] (VObj 2 true)
              (Ok (echo_outputs ["p"]))
              ∈ (run (_generate echo_engine falsy_params_llm ["p"]
                        (VStrs ["."]) VNone {[ "top_k" := VInt 5 ]})).1)
      as Hin.
    { vm_compute. apply list_elem_of_further, list_elem_of_further,
        list_elem_of_here. }
    destruct (Hgen _ _ _ _ Hin) as (kw & Hkw & _).
    destruct (Hparams _ _ Hkw) as (_ & Hstop & Hkeys & _).
    exists kw, (VObj 2 true). split; [exact Hin|]. split; [exact Hkw|].
    split; [exact Hstop|]. split.
    + by rewrite (Hkeys "top_k").
    + by rewrite (Hkeys "n").
Defined.

End presence_claims.
